(** * concurrent-prime-finder: the Python prime finder, embedded and verified

    Source: [src/python/prime_finder.py].  Integers are Python's unbounded
    [int], modelled as [Z]; [//] and [%] are floor division and its remainder,
    which is what [Z.div] and [Z.modulo] compute, except that Python raises
    [ZeroDivisionError] on a zero divisor where [Z.div] returns [0].

    The file has two parts: the embedding of the program, then the theorems
    about it. *)

From Stdlib Require Import ZArith Znumtheory Lia List Permutation Sorted.
From Stdlib Require QArith.
From stdpp Require Import base option list sorting strings gmap.
Import ListNotations.

#[local] Open Scope Z_scope.

(** * Part I: the program *)

(** ** Exceptions

    A computation either returns or raises.  Only the exceptions the modelled
    code can raise are listed. *)

Inductive exn : Set :=
| ZeroDivisionError  (* [//] or [/] with a zero divisor *)
| ValueError         (* an executor built with [max_workers <= 0], [range] with step 0,
                        a process pool of more than 61 workers on Windows *)
| PicklingError      (* a task that cannot be pickled for a worker process; CPython
                        reports it as [pickle.PicklingError] or, in older
                        versions, as an [AttributeError] raised by pickle *)
| OverflowError      (* a process pool whose call queue, of [max_workers + 1]
                        places, does not fit a C [int] *)
| OSError.           (* the operating system's refusal of a semaphore as large
                        as a process pool's call queue *)

Inductive result (A : Type) : Type :=
| Ok (a : A)
| Raise (e : exn).

Arguments Ok {A} a.
Arguments Raise {A} e.

#[global] Instance result_ret : MRet result := fun A a => Ok a.
#[global] Instance result_bind : MBind result :=
  fun A B f m => match m with Ok a => f a | Raise e => Raise e end.

(** [a // b] on [int]. *)
Definition floordiv (a b : Z) : result Z :=
  if b =? 0 then Raise ZeroDivisionError else Ok (a / b).

(** ** Primality oracle *)

(** The [while i * i <= n] loop of [is_prime], one iteration per unit of fuel.
    [None] means the fuel ran out before the loop left.  The divisors [i] and
    [i + 2] are at least 5, so [%] cannot raise here. *)
Fixpoint is_prime_loop (fuel : nat) (n i : Z) : option bool :=
  match fuel with
  | O => None
  | S fuel' =>
      if i * i <=? n then
        if (n mod i =? 0) || (n mod (i + 2) =? 0) then Some false
        else is_prime_loop fuel' n (i + 6)
      else Some true
  end.

(** The body of [is_prime], with the loop entered at [i = 5]. *)
Definition is_prime_fuel (fuel : nat) (n : Z) : option bool :=
  if n <=? 1 then Some false
  else if n <=? 3 then Some true
  else if (n mod 2 =? 0) || (n mod 3 =? 0) then Some false
  else is_prime_loop fuel n 5.

(** Fuel for the loop entered at [i = 5]: one unit for the test that leaves
    the loop, and the measure [n - i * i] counted from [-1]. *)
Definition is_prime_budget (n : Z) : nat := S (Z.to_nat (n - 5 * 5 + 1)).

(** [is_prime(n)].  The budget is always enough (see [is_prime_fuel_budget]),
    so the [None] branch is never taken. *)
Definition is_prime (n : Z) : bool :=
  match is_prime_fuel (is_prime_budget n) n with
  | Some b => b
  | None => false
  end.

(** ** Python's [range] *)

(** [len(range(start, stop, step))] for [step <> 0], as CPython computes it. *)
Definition range_len (start stop step : Z) : Z :=
  let '(lo, hi, step) := if 0 <? step then (start, stop, step) else (stop, start, - step) in
  if hi <=? lo then 0 else (hi - lo - 1) / step + 1.

Fixpoint range_from (start step : Z) (count : nat) : list Z :=
  match count with
  | O => []
  | S count' => start :: range_from (start + step) step count'
  end.

(** [range(start, stop, step)], which raises on a zero step. *)
Definition range3 (start stop step : Z) : result (list Z) :=
  if step =? 0 then Raise ValueError
  else Ok (range_from start step (Z.to_nat (range_len start stop step))).

(** [range(start, stop)]. *)
Definition range2 (start stop : Z) : list Z :=
  range_from start 1 (Z.to_nat (range_len start stop 1)).

(** ** Primes of a range *)

(** [[i for i in range(start, end + 1) if is_prime(i)]] *)
Definition find_primes_in_range (start end_ : Z) : list Z :=
  List.filter is_prime (range2 start (end_ + 1)).

(** ** Partitioning, as both fan-out strategies write it *)

(** [chunk_size = (end - start + 1) // workers], then clamped to at least 1. *)
Definition chunk_size (start end_ workers : Z) : result Z :=
  chunk_size ← floordiv (end_ - start + 1) workers;
  mret (if chunk_size <? 1 then 1 else chunk_size).

(** [for i in range(start, end + 1, chunk_size)]: the pair
    [(i, min(i + chunk_size - 1, end))]. *)
Definition ranges (start end_ chunk_size : Z) : result (list (Z * Z)) :=
  starts ← range3 start (end_ + 1) chunk_size;
  mret (List.map (fun i => (i, Z.min (i + chunk_size - 1) end_)) starts).

(** [sorted] on a list of [int]: the ascending stable sort. *)
Definition sorted (l : list Z) : list Z := merge_sort Z.le l.

(** ** Executors *)

(** [ThreadPoolExecutor(max_workers=n)] refuses [n <= 0] and nothing else.
    [ProcessPoolExecutor] depends on the platform and comes after [Runtime]. *)
Definition ThreadPoolExecutor (max_workers : Z) : result unit :=
  if max_workers <=? 0 then Raise ValueError else Ok tt.

(** A function handed to a process pool is sent to the workers by pickling,
    which stores a function as its importable qualified name.  A [def] at
    module level has one; a [lambda] or a function defined inside another
    function has none. *)
Record callable (A B : Type) : Type := Callable {
  call : A -> B;
  picklable : bool
}.

Arguments Callable {A B} call picklable.
Arguments call {A B} c a.
Arguments picklable {A B} c.

(** [executor.map(fn, tasks)] on a process pool, consumed to the end by the
    caller: one task per element, results in the order of [tasks].  Each
    submitted task carries [fn]; with nothing to submit nothing is pickled. *)
Definition executor_map {A B : Type} (fn : callable A B) (tasks : list A) : result (list B) :=
  match tasks with
  | [] => Ok []
  | _ :: _ => if picklable fn then Ok (List.map (call fn) tasks) else Raise PicklingError
  end.

(** [lambda r: find_primes_in_range(r[0], r[1])], written inside
    [find_primes_multiprocessing]. *)
Definition range_lambda : callable (Z * Z) (list Z) :=
  Callable (fun r => find_primes_in_range (fst r) (snd r)) false.

(** ** What the program reads from its surroundings

    [time.time()] returns a [float]; the program only subtracts and divides
    these.  The thread pool decides in which order the workers take the lock
    and extend the shared list: every submitted task does so exactly once,
    since the caller waits for every future.  [os.cpu_count()] may be [None].

    A process pool has a largest size, checked when the pool is built.  On
    Windows it is 61 workers, and a larger count is a [ValueError].  Elsewhere
    the pool's call queue of [max_workers + 1] places is guarded by a
    semaphore of that size: on Linux that gives [OverflowError] from
    [2^31 - 1] workers on.  The limit and the exception are the platform's;
    the limit is never below 61. *)
Class Runtime : Type := {
  time : Type;
  time_sub : time -> time -> time;
  time_div : time -> time -> time;
  time_is_zero : time -> bool;
  clock : nat -> time;
  schedule : nat -> list (Z * Z) -> list (Z * Z);
  schedule_perm : forall s tasks, schedule s tasks ≡ₚ tasks;
  os_cpu_count : option Z;
  pool_max_workers : Z;
  pool_refusal : exn;
  pool_max_workers_min : 61 <= pool_max_workers
}.

(** Command-line arguments after parsing. *)
Inductive Method : Set := Sequential | Threading | Multiprocessing | All.

Record Args : Set := {
  args_start : Z;
  args_end : Z;
  args_workers : Z;
  args_method : Method;
  args_save_primes : bool
}.

(** The three strategy names of [--method], as the keys of the result. *)
Definition method_name (m : Method) : string :=
  match m with
  | Sequential => "sequential"
  | Threading => "threading"
  | Multiprocessing => "multiprocessing"
  | All => "all"
  end.

Section Program.
Context `{Runtime}.

(** [ProcessPoolExecutor(max_workers=n)] refuses [n <= 0] and a count above
    the platform's largest pool. *)
Definition ProcessPoolExecutor (max_workers : Z) : result unit :=
  if max_workers <=? 0 then Raise ValueError
  else if pool_max_workers <? max_workers then Raise pool_refusal
  else Ok tt.

(** Computations that read the clock: the state is the number of readings
    taken so far. *)
Definition M (A : Type) : Type := nat -> result (A * nat).

#[global] Instance M_ret : MRet M := fun A a s => Ok (a, s).
#[global] Instance M_bind : MBind M :=
  fun A B f m s => match m s with Ok (a, s') => f a s' | Raise e => Raise e end.

Definition lift {A : Type} (r : result A) : M A :=
  fun s => match r with Ok a => Ok (a, s) | Raise e => Raise e end.

(** [time.time()] *)
Definition time_time : M time := fun s => Ok (clock s, S s).

(** The order in which the workers extended the shared list. *)
Definition completion_order (tasks : list (Z * Z)) : M (list (Z * Z)) :=
  fun s => Ok (schedule s tasks, s).

(** [a / b] on [float]. *)
Definition truediv (a b : time) : result time :=
  if time_is_zero b then Raise ZeroDivisionError else Ok (time_div a b).

(** ** The three strategies *)

Definition find_primes_sequential (start end_ : Z) : M (list Z * time) :=
  start_time ← time_time;
  let primes := find_primes_in_range start end_ in
  now ← time_time;
  mret (primes, time_sub now start_time).

(** Each task computes [find_primes_in_range] of its chunk and, holding the
    lock, extends [all_primes] with it. *)
Definition find_primes_threading (start end_ num_threads : Z) : M (list Z * time) :=
  start_time ← time_time;
  chunk_size ← lift (chunk_size start end_ num_threads);
  _ ← lift (ThreadPoolExecutor num_threads);
  tasks ← lift (ranges start end_ chunk_size);
  done ← completion_order tasks;
  let all_primes := concat (List.map (fun r => find_primes_in_range (fst r) (snd r)) done) in
  now ← time_time;
  mret (sorted all_primes, time_sub now start_time).

Definition find_primes_multiprocessing (start end_ num_processes : Z) : M (list Z * time) :=
  start_time ← time_time;
  chunk_size ← lift (chunk_size start end_ num_processes);
  ranges ← lift (ranges start end_ chunk_size);
  _ ← lift (ProcessPoolExecutor num_processes);
  results ← lift (executor_map range_lambda ranges);
  let all_primes := concat results in
  now ← time_time;
  mret (sorted all_primes, time_sub now start_time).

(** ** Benchmark harness *)

(** One strategy's entry of the result; [speedup = None] when the dict has
    no ['speedup'] key. *)
Record BenchmarkRecord : Type := {
  primes_found : Z;
  execution_time : time;
  workers : Z;
  speedup : option time
}.

(** The ['configuration'] entry. *)
Record Configuration : Set := {
  start_range : Z;
  end_range : Z;
  cpu_count : option Z
}.

(** A value of the result dict. *)
Inductive entry : Type :=
| Strategy (r : BenchmarkRecord)
| Config (c : Configuration)
| PrimeList (primes : list Z).

(** [len(primes)] *)
Definition len (primes : list Z) : Z := Z.of_nat (length primes).

Definition benchmark_all_methods (start end_ workers : Z)
  : M (gmap string entry * list Z) :=
  let results : gmap string entry := ∅ in
  '(primes, duration) ← find_primes_sequential start end_;
  let results :=
    <["sequential" := Strategy {| primes_found := len primes;
                                  execution_time := duration;
                                  workers := 1;
                                  speedup := None |}]> results in
  '(primes_thread, duration_thread) ← find_primes_threading start end_ workers;
  speedup_thread ← lift (truediv duration duration_thread);
  let results :=
    <["threading" := Strategy {| primes_found := len primes_thread;
                                 execution_time := duration_thread;
                                 workers := workers;
                                 speedup := Some speedup_thread |}]> results in
  '(primes_multi, duration_multi) ← find_primes_multiprocessing start end_ workers;
  speedup_multi ← lift (truediv duration duration_multi);
  let results :=
    <["multiprocessing" := Strategy {| primes_found := len primes_multi;
                                       execution_time := duration_multi;
                                       workers := workers;
                                       speedup := Some speedup_multi |}]> results in
  mret (results, primes).

(** [main], from the parsed arguments to the dict it hands to [json.dump]:
    the computation of lines 149 to 189.  Printing is left out, and so is the
    writing of the output file that follows, which can fail on its own; the
    worker count is an [int], as [--workers] or a known CPU count gives it. *)
Definition main (args : Args) : M (gmap string entry) :=
  let configuration :=
    Config {| start_range := args_start args;
              end_range := args_end args;
              cpu_count := os_cpu_count |} in
  match args_method args with
  | All =>
      '(results, primes) ←
        benchmark_all_methods (args_start args) (args_end args) (args_workers args);
      let results := <["configuration" := configuration]> results in
      mret (if args_save_primes args then <["primes" := PrimeList primes]> results
            else results)
  | method =>
      '(primes, duration, workers) ←
        match method with
        | Sequential =>
            '(primes, duration) ← find_primes_sequential (args_start args) (args_end args);
            mret (primes, duration, 1)
        | Threading =>
            '(primes, duration) ←
              find_primes_threading (args_start args) (args_end args) (args_workers args);
            mret (primes, duration, args_workers args)
        | _ =>
            '(primes, duration) ←
              find_primes_multiprocessing (args_start args) (args_end args) (args_workers args);
            mret (primes, duration, args_workers args)
        end;
      let results : gmap string entry :=
        <["configuration" := configuration]>
          (<[method_name method := Strategy {| primes_found := len primes;
                                               execution_time := duration;
                                               workers := workers;
                                               speedup := None |}]> ∅) in
      mret (if args_save_primes args then <["primes" := PrimeList primes]> results
            else results)
  end.

End Program.

(** ** A runtime to evaluate the program on

    Rational clock readings [0, 1, 4, 9, ...], workers that take the lock in
    the reverse of the submission order, eight CPUs, and the process pools
    of Linux: at most [2^31 - 2] workers, [OverflowError] beyond. *)

Definition sample_runtime : Runtime := {|
  time := QArith_base.Q;
  time_sub := QArith_base.Qminus;
  time_div := QArith_base.Qdiv;
  time_is_zero := fun q => QArith_base.Qeq_bool q (QArith_base.inject_Z 0);
  clock := fun n => QArith_base.inject_Z (Z.of_nat (n * n));
  schedule := fun _ tasks => reverse tasks;
  schedule_perm := fun _ tasks => reverse_Permutation tasks;
  os_cpu_count := Some 8;
  pool_max_workers := 2147483646;
  pool_refusal := OverflowError;
  pool_max_workers_min := ltac:(lia)
|}.

(** A run of the thread strategy over [[1, 20]] with 2 workers. *)
Definition sample_args : Args :=
  {| args_start := 1; args_end := 20; args_workers := 2;
     args_method := Threading; args_save_primes := false |}.

(** The dict [main] hands to [json.dump] on that run: 8 primes, elapsed time
    [1 - 0], and the configuration. *)
Definition sample_results : gmap string (@entry sample_runtime) :=
  <["configuration" :=
      Config {| start_range := 1; end_range := 20; cpu_count := Some 8 |}]>
    (<["threading" :=
         @Strategy sample_runtime
           (@Build_BenchmarkRecord sample_runtime 8 (QArith_base.Qmake 1 1) 2 None)]> ∅).

(** ** The result files, as [visualize_results.py] reads them

    Source: [src/python/visualize_results.py], [load_results] and the
    [__main__] block.  The charts themselves are drawn by a plotting library
    and are not modelled: [create_visualizations] is only named. *)

(** What [json.load] returns.  A number is an [int] or a [float]; an object
    is a [dict] with string keys. *)
#[local] Unset Elimination Schemes.
Inductive json (F : Type) : Type :=
| JNull
| JBool (b : bool)
| JInt (n : Z)
| JFloat (x : F)
| JString (s : string)
| JArray (l : list (json F))
| JObject (m : gmap string (json F)).
#[local] Set Elimination Schemes.

Arguments JNull {F}.
Arguments JBool {F} b.
Arguments JInt {F} n.
Arguments JFloat {F} x.
Arguments JString {F} s.
Arguments JArray {F} l.
Arguments JObject {F} m.

(** What [load_results] can raise. *)
Inductive load_exn : Set :=
| KeyError (key : string)   (* a dict without the key *)
| TypeError                 (* a value that cannot be subscripted or searched *)
| JSONDecodeError.          (* a file that does not hold JSON *)

Inductive outcome (A : Type) : Type :=
| Returned (a : A)
| Raised (e : load_exn).

Arguments Returned {A} a.
Arguments Raised {A} e.

#[global] Instance outcome_ret : MRet outcome := fun A a => Returned a.
#[global] Instance outcome_bind : MBind outcome :=
  fun A B f m => match m with Returned a => f a | Raised e => Raised e end.

(** A file of the [results] directory: absent, not JSON, or parsed. *)
Inductive file_state (J : Type) : Type :=
| Missing
| Malformed
| Holds (data : J).

Arguments Missing {J}.
Arguments Malformed {J}.
Arguments Holds {J} data.

(** [key in s] on [str]: [key] occurs in [s]. *)
Fixpoint occurs_in (key s : string) : bool :=
  String.prefix key s ||
  match s with
  | EmptyString => false
  | String _ s' => occurs_in key s'
  end.

Section Visualizer.
Context {F : Type}.

(** [data[key]] with a [str] key: only a dict accepts it. *)
Definition getitem (data : json F) (key : string) : outcome (json F) :=
  match data with
  | JObject m =>
      match m !! key with
      | Some v => Returned v
      | None => Raised (KeyError key)
      end
  | _ => Raised TypeError
  end.

(** [key in data] with a [str] key: a key of a dict, an element of a list, a
    part of a string; anything else cannot be searched. *)
Definition contains (key : string) (data : json F) : outcome bool :=
  match data with
  | JObject m => Returned (bool_decide (is_Some (m !! key)))
  | JArray l =>
      Returned (existsb (fun v => match v with
                                  | JString s => String.eqb s key
                                  | _ => false
                                  end) l)
  | JString s => Returned (occurs_in key s)
  | _ => Raised TypeError
  end.

(** One entry of [results]: whatever the file held under the three names. *)
Record row : Type := {
  row_time : json F;
  row_workers : json F;
  row_primes : json F
}.

(** [{'time': d['execution_time'], 'workers': d['workers'],
      'primes': d['primes_found']}], where [d] is evaluated anew for each
    field. *)
Definition read_row (d : outcome (json F)) : outcome row :=
  t ← (x ← d; getitem x "execution_time");
  w ← (x ← d; getitem x "workers");
  p ← (x ← d; getitem x "primes_found");
  mret {| row_time := t; row_workers := w; row_primes := p |}.

(** [if key in data: results[label] = {... data[key][...] ...}] *)
Definition load_section (data : json F) (key label : string)
    (results : gmap string row) : outcome (gmap string row) :=
  present ← contains key data;
  if (present : bool)
  then r ← read_row (getitem data key); mret (<[label := r]> results)
  else mret results.

Record Files : Type := {
  go_file : file_state (json F);
  python_file : file_state (json F);
  java_file : file_state (json F)
}.

(** The block of the Go file: the row is read from the top of the file. *)
Definition load_go (file : file_state (json F)) (results : gmap string row)
  : outcome (gmap string row) :=
  match file with
  | Missing => mret results
  | Malformed => Raised JSONDecodeError
  | Holds data => r ← read_row (Returned data); mret (<["Go" := r]> results)
  end.

(** The block of the Python file and that of the Java file: two sections. *)
Definition load_sections (file : file_state (json F)) (key1 label1 key2 label2 : string)
    (results : gmap string row) : outcome (gmap string row) :=
  match file with
  | Missing => mret results
  | Malformed => Raised JSONDecodeError
  | Holds data =>
      results ← load_section data key1 label1 results;
      load_section data key2 label2 results
  end.

Definition load_results (files : Files) : outcome (gmap string row) :=
  let results : gmap string row := ∅ in
  results ← load_go (go_file files) results;
  results ← load_sections (python_file files)
              "multiprocessing" "Python (MP)" "threading" "Python (Thread)" results;
  results ← load_sections (java_file files)
              "threadpool" "Java (ThreadPool)" "parallelstream" "Java (Parallel)" results;
  mret results.

(** The [__main__] block: [create_visualizations(results)] when [results] is
    not empty, and the message ["No results found! Run benchmarks first."]
    otherwise. *)
Inductive action : Type :=
| create_visualizations (results : gmap string row)
| NoResultsFound.

Definition visualize (files : Files) : outcome action :=
  results ← load_results files;
  mret (if (size results =? 0)%nat then NoResultsFound else create_visualizations results).

(** *** Vocabulary of the statements about the files *)

(** [holds_row d r]: [d] is a dict and [r] is made of its three fields. *)
Definition holds_row (d : json F) (r : row) : Prop :=
  exists fields, d = JObject fields /\
    fields !! "execution_time" = Some (row_time r) /\
    fields !! "workers" = Some (row_workers r) /\
    fields !! "primes_found" = Some (row_primes r).

(** The value under [key] of a parsed file. *)
Definition section_of (file : file_state (json F)) (key : string) : option (json F) :=
  match file with
  | Holds data =>
      match getitem data key with
      | Returned v => Some v
      | Raised _ => None
      end
  | _ => None
  end.

(** Whether a parsed file has the section [key]. *)
Definition has_section (file : file_state (json F)) (key : string) : Prop :=
  exists data, file = Holds data /\ contains key data = Returned true.

(** What the Go file has to be for the label ['Go'] to hold [o], and what a
    file has to be for a section's label to hold [o]. *)
Definition go_row (file : file_state (json F)) (o : option row) : Prop :=
  match o with
  | None => file = Missing
  | Some r => exists data, file = Holds data /\ holds_row data r
  end.

Definition section_row (file : file_state (json F)) (key : string) (o : option row) : Prop :=
  match o with
  | None => file = Missing \/ exists data, file = Holds data /\ contains key data = Returned false
  | Some r =>
      exists data d, file = Holds data /\ contains key data = Returned true /\
                     getitem data key = Returned d /\ holds_row d r
  end.

(** Where the row of each label comes from. *)
Definition row_source (files : Files) (label : string) : option (json F) :=
  if String.eqb label "Go" then
    match go_file files with Holds data => Some data | _ => None end
  else if String.eqb label "Python (MP)" then section_of (python_file files) "multiprocessing"
  else if String.eqb label "Python (Thread)" then section_of (python_file files) "threading"
  else if String.eqb label "Java (ThreadPool)" then section_of (java_file files) "threadpool"
  else if String.eqb label "Java (Parallel)" then section_of (java_file files) "parallelstream"
  else None.

End Visualizer.

Arguments row F : clear implicits.
Arguments Files F : clear implicits.
Arguments action F : clear implicits.

(** *** What [main] leaves in its output file

    [json.dump] writes the dict and [json.load] reads the same value back:
    integers and floats survive the text exactly, [None] is [null], and the
    keys are strings already. *)
Section Dump.
Context `{Runtime}.

Definition json_of_record (r : BenchmarkRecord) : json time :=
  let fields : gmap string (json time) :=
    <["workers" := JInt (workers r)]>
      (<["execution_time" := JFloat (execution_time r)]>
         (<["primes_found" := JInt (primes_found r)]> ∅)) in
  JObject match speedup r with
          | Some x => <["speedup" := JFloat x]> fields
          | None => fields
          end.

Definition json_of_entry (e : entry) : json time :=
  match e with
  | Strategy r => json_of_record r
  | Config c =>
      JObject (<["cpu_count" := match cpu_count c with
                                | Some n => JInt n
                                | None => JNull
                                end]>
                 (<["end_range" := JInt (end_range c)]>
                    (<["start_range" := JInt (start_range c)]> ∅)))
  | PrimeList primes => JArray (JInt <$> primes)
  end.

Definition json_of_results (results : gmap string entry) : json time :=
  JObject (json_of_entry <$> results).

(** The row [load_results] makes of a strategy record. *)
Definition row_of_record (r : BenchmarkRecord) : row time :=
  {| row_time := JFloat (execution_time r);
     row_workers := JInt (workers r);
     row_primes := JInt (primes_found r) |}.

(** The strategy record under a key of [main]'s dict, if there is one. *)
Definition strategy_at (key : string) (results : gmap string entry)
  : option BenchmarkRecord :=
  match results !! key with
  | Some (Strategy r) => Some r
  | _ => None
  end.

End Dump.

(** The Go result file that [create_sample_results.py] writes, and a
    directory with it and the output of the sample run of [main]. *)
Definition sample_go_results : json QArith_base.Q :=
  JObject (<["start_range" := JInt 1]>
          (<["end_range" := JInt 1000000]>
          (<["primes_found" := JInt 78498]>
          (<["execution_time" := JFloat (QArith_base.Qmake 1823 1000)]>
          (<["workers" := JInt 8]> ∅))))).

Definition sample_files : Files QArith_base.Q :=
  {| go_file := Holds sample_go_results;
     python_file := Holds (@json_of_results sample_runtime sample_results);
     java_file := Missing |}.

(** ** Vocabulary of the statements *)

(** [tiles lo hi chunks]: read in order, the chunks cut the integers
    [lo, ..., hi] into consecutive pieces, none of them empty.  Each chunk
    starts where the one before stopped, and the last one stops at [hi]. *)
Inductive tiles : Z -> Z -> list (Z * Z) -> Prop :=
| tiles_nil (lo hi : Z) :
    hi < lo -> tiles lo hi []
| tiles_cons (lo hi b : Z) (rest : list (Z * Z)) :
    lo <= b <= hi -> tiles (b + 1) hi rest -> tiles lo hi ((lo, b) :: rest).

(** The integers of a chunk. *)
Definition chunk_members (r : Z * Z) : list Z := range2 (fst r) (snd r + 1).

(** The number of chunks. *)
Definition len_chunks (chunks : list (Z * Z)) : Z := Z.of_nat (length chunks).

(** * Part II: the theorems *)

(** ** Termination of the loop *)

Lemma loop_measure_decreases (n i : Z) :
  0 < i -> n - (i + 6) * (i + 6) < n - i * i.
Proof. intros Hi. nia. Qed.

Lemma is_prime_loop_terminates (fuel : nat) :
  forall n i, 0 < i -> (Z.to_nat (n - i * i + 1) < fuel)%nat ->
  exists b, is_prime_loop fuel n i = Some b.
Proof.
  induction fuel as [|fuel IH]; intros n i Hi Hfuel; [lia|].
  cbn [is_prime_loop].
  destruct (Z.leb_spec (i * i) n) as [Hle|Hgt]; [|eauto].
  destruct ((n mod i =? 0) || (n mod (i + 2) =? 0)); [eauto|].
  pose proof (loop_measure_decreases n i Hi) as Hdec.
  apply IH; lia.
Qed.

Lemma is_prime_loop_more_fuel (fuel fuel' : nat) :
  forall n i b, (fuel <= fuel')%nat ->
  is_prime_loop fuel n i = Some b -> is_prime_loop fuel' n i = Some b.
Proof.
  revert fuel'. induction fuel as [|fuel IH]; intros fuel' n i b Hle H; [discriminate|].
  destruct fuel' as [|fuel']; [lia|].
  cbn [is_prime_loop] in *.
  destruct (i * i <=? n); [|exact H].
  destruct ((n mod i =? 0) || (n mod (i + 2) =? 0)); [exact H|].
  apply (IH fuel'); [lia|exact H].
Qed.

Lemma is_prime_fuel_budget (n : Z) :
  exists b, is_prime_fuel (is_prime_budget n) n = Some b.
Proof.
  unfold is_prime_fuel, is_prime_budget.
  destruct (n <=? 1); [eauto|].
  destruct (n <=? 3); [eauto|].
  destruct ((n mod 2 =? 0) || (n mod 3 =? 0)); [eauto|].
  apply is_prime_loop_terminates; lia.
Qed.

Lemma is_prime_fuel_spec (fuel : nat) (n : Z) (b : bool) :
  is_prime_fuel fuel n = Some b -> is_prime n = b.
Proof.
  intros H. unfold is_prime.
  destruct (is_prime_fuel_budget n) as [b' Hb']. rewrite Hb'.
  unfold is_prime_fuel in *.
  destruct (n <=? 1); [congruence|].
  destruct (n <=? 3); [congruence|].
  destruct ((n mod 2 =? 0) || (n mod 3 =? 0)); [congruence|].
  destruct (Nat.le_ge_cases fuel (is_prime_budget n)) as [Hle|Hge].
  - pose proof (is_prime_loop_more_fuel _ _ _ _ _ Hle H). congruence.
  - pose proof (is_prime_loop_more_fuel _ _ _ _ _ Hge Hb'). congruence.
Qed.

(** ** Correctness of the oracle

    [Z.prime p] is the textbook notion: [1 < p] and no [d] with [1 < d < p]
    divides [p]. *)

Lemma mod_eqb_divide (n d : Z) : d <> 0 -> (n mod d =? 0) = true <-> (d | n).
Proof. intros Hd. rewrite Z.eqb_eq. apply Z.mod_divide, Hd. Qed.

Lemma divisor_not_prime (n d : Z) : 1 < d < n -> (d | n) -> ~ Z.prime n.
Proof. intros Hd Hdiv [_ Hp]. exact (Hp d Hd Hdiv). Qed.

(** Between two consecutive candidates [i] and [i + 6] with [i = 6k + 5], the
    numbers the loop skips are multiples of 2 or of 3. *)
Lemma wheel_step (n i d : Z) :
  i mod 6 = 5 -> ~ (2 | n) -> ~ (3 | n) -> ~ (i | n) -> ~ (i + 2 | n) ->
  i <= d < i + 6 -> ~ (d | n).
Proof.
  intros Hi H2 H3 Hd0 Hd2 Hrange Hdiv.
  pose proof (Z.div_mod i 6 ltac:(lia)) as Hq. rewrite Hi in Hq.
  set (q := i / 6) in Hq.
  assert (d = i \/ d = i + 1 \/ d = i + 2 \/ d = i + 3 \/ d = i + 4 \/ d = i + 5)
    as [-> | [-> | [-> | [-> | [-> | ->]]]]] by lia; try contradiction.
  - apply H2. apply Z.divide_trans with (i + 1); [|exact Hdiv].
    exists (3 * q + 3). lia.
  - apply H2. apply Z.divide_trans with (i + 3); [|exact Hdiv].
    exists (3 * q + 4). lia.
  - apply H3. apply Z.divide_trans with (i + 4); [|exact Hdiv].
    exists (2 * q + 3). lia.
  - apply H2. apply Z.divide_trans with (i + 5); [|exact Hdiv].
    exists (3 * q + 5). lia.
Qed.

(** Leaving the loop with [n < i * i]: a number with no divisor below [i] has
    no proper divisor at all. *)
Lemma no_small_divisor_prime (n i : Z) :
  1 < n -> n < i * i -> 0 <= i ->
  (forall d, 1 < d < i -> ~ (d | n)) -> Z.prime n.
Proof.
  intros Hn Hsq Hi Hsmall. split; [exact Hn|].
  intros d Hd Hdiv.
  destruct (Z_lt_le_dec d i) as [Hlt|Hge]; [exact (Hsmall d ltac:(lia) Hdiv)|].
  destruct Hdiv as [c Hc].
  assert (1 < c) as Hc1 by nia.
  destruct (Z_lt_le_dec c i) as [Hclt|Hcge].
  - apply (Hsmall c ltac:(lia)). exists d. lia.
  - assert (i * i <= c * d) by (apply Z.mul_le_mono_nonneg; lia). lia.
Qed.

Lemma is_prime_loop_true (fuel : nat) :
  forall n i, is_prime_loop fuel n i = Some true ->
  5 <= i -> i mod 6 = 5 -> 1 < n -> ~ (2 | n) -> ~ (3 | n) ->
  (forall d, 1 < d < i -> ~ (d | n)) -> Z.prime n.
Proof.
  induction fuel as [|fuel IH]; intros n i H Hi Hmod Hn H2 H3 Hsmall; [discriminate|].
  cbn [is_prime_loop] in H.
  destruct (Z.leb_spec (i * i) n) as [Hle|Hgt].
  - destruct ((n mod i =? 0) || (n mod (i + 2) =? 0)) eqn:Htest; [discriminate|].
    apply orb_false_elim in Htest as [Hd0 Hd2].
    assert (~ (i | n)) as Hn0.
    { intros Hdiv. apply (mod_eqb_divide n i) in Hdiv; [congruence|lia]. }
    assert (~ (i + 2 | n)) as Hn2.
    { intros Hdiv. apply (mod_eqb_divide n (i + 2)) in Hdiv; [congruence|lia]. }
    apply (IH n (i + 6) H); try assumption; [lia| |].
    + rewrite <- (Z.mod_add i 1 6) in Hmod by lia.
      replace (i + 1 * 6) with (i + 6) in Hmod by lia. exact Hmod.
    + intros d Hd. destruct (Z_lt_le_dec d i) as [Hlt|Hge].
      * apply Hsmall. lia.
      * apply (wheel_step n i d); try assumption. lia.
  - apply (no_small_divisor_prime n i); try assumption; lia.
Qed.

Lemma is_prime_loop_false (fuel : nat) :
  forall n i, is_prime_loop fuel n i = Some false -> 5 <= i -> ~ Z.prime n.
Proof.
  induction fuel as [|fuel IH]; intros n i H Hi; [discriminate|].
  cbn [is_prime_loop] in H.
  destruct (Z.leb_spec (i * i) n) as [Hle|Hgt]; [|discriminate].
  destruct ((n mod i =? 0) || (n mod (i + 2) =? 0)) eqn:Htest.
  - apply orb_true_elim in Htest as [Hd|Hd].
    + apply (divisor_not_prime n i); [nia|].
      apply (mod_eqb_divide n i); [lia|exact Hd].
    + apply (divisor_not_prime n (i + 2)); [nia|].
      apply (mod_eqb_divide n (i + 2)); [lia|exact Hd].
  - apply (IH n (i + 6) H). lia.
Qed.

Lemma is_prime_fuel_sound (fuel : nat) (n : Z) (b : bool) :
  is_prime_fuel fuel n = Some b -> (b = true <-> Z.prime n).
Proof.
  unfold is_prime_fuel.
  destruct (Z.leb_spec n 1) as [Hle1|Hgt1].
  { intros [= <-]. split; [discriminate|]. intros [Hp _]. lia. }
  destruct (Z.leb_spec n 3) as [Hle3|Hgt3].
  { intros [= <-]. split; [intros _|reflexivity].
    apply (no_small_divisor_prime n 2); try lia.  }
  destruct ((n mod 2 =? 0) || (n mod 3 =? 0)) eqn:Htest.
  - intros [= <-]. split; [discriminate|]. intros Hp. exfalso. revert Hp.
    apply orb_true_elim in Htest as [Hd|Hd].
    + apply (divisor_not_prime n 2); [lia|]. apply (mod_eqb_divide n 2); [lia|exact Hd].
    + apply (divisor_not_prime n 3); [lia|]. apply (mod_eqb_divide n 3); [lia|exact Hd].
  - apply orb_false_elim in Htest as [Hd2 Hd3].
    assert (~ (2 | n)) as Hn2.
    { intros Hdiv. apply (mod_eqb_divide n 2) in Hdiv; [congruence|lia]. }
    assert (~ (3 | n)) as Hn3.
    { intros Hdiv. apply (mod_eqb_divide n 3) in Hdiv; [congruence|lia]. }
    intros Hloop. destruct b.
    + split; [intros _|reflexivity].
      apply (is_prime_loop_true fuel n 5 Hloop); try assumption; try lia; [reflexivity|].
      intros d Hd Hdiv.
      assert (d = 2 \/ d = 3 \/ d = 4) as [-> | [-> | ->]] by lia; try contradiction.
      apply Hn2. apply Z.divide_trans with 4; [exists 2; lia|exact Hdiv].
    + split; [discriminate|]. intros Hp. exfalso. revert Hp.
      apply (is_prime_loop_false fuel n 5 Hloop). lia.
Qed.

Lemma is_prime_iff (n : Z) : is_prime n = true <-> Z.prime n.
Proof.
  destruct (is_prime_fuel_budget n) as [b Hb].
  rewrite (is_prime_fuel_spec _ _ _ Hb).
  exact (is_prime_fuel_sound _ _ _ Hb).
Qed.

(** The loop answers [false] exactly at a candidate [c = i, i + 6, ...] with
    [c * c <= n] such that [c] or [c + 2] divides [n]. *)
Lemma is_prime_loop_false_candidate (fuel : nat) :
  forall n i, is_prime_loop fuel n i = Some false ->
  exists j, 0 <= j /\ (i + 6 * j) * (i + 6 * j) <= n /\
            (n mod (i + 6 * j) = 0 \/ n mod (i + 6 * j + 2) = 0).
Proof.
  induction fuel as [|fuel IH]; intros n i H; [discriminate|].
  cbn [is_prime_loop] in H.
  destruct (Z.leb_spec (i * i) n) as [Hle|Hgt]; [|discriminate].
  destruct ((n mod i =? 0) || (n mod (i + 2) =? 0)) eqn:Htest.
  - exists 0. rewrite Z.mul_0_r, Z.add_0_r.
    apply orb_true_elim in Htest as [Hd|Hd]; apply Z.eqb_eq in Hd; auto with lia.
  - destruct (IH n (i + 6) H) as (j & Hj & Hsq & Hdiv).
    exists (j + 1). replace (i + 6 * (j + 1)) with (i + 6 + 6 * j) by lia.
    auto with lia.
Qed.

Lemma is_prime_false_iff_candidate (n : Z) :
  3 < n -> ~ (2 | n) -> ~ (3 | n) ->
  is_prime n = false <->
  exists k, 1 <= k /\ (6 * k - 1) * (6 * k - 1) <= n /\
            ((6 * k - 1 | n) \/ (6 * k + 1 | n)).
Proof.
  intros Hn H2 H3. split.
  - intros Hfalse.
    destruct (is_prime_fuel_budget n) as [b Hb].
    rewrite (is_prime_fuel_spec _ _ _ Hb) in Hfalse. subst b.
    unfold is_prime_fuel in Hb.
    destruct (Z.leb_spec n 1); [lia|]. destruct (Z.leb_spec n 3); [lia|].
    destruct ((n mod 2 =? 0) || (n mod 3 =? 0)) eqn:Htest.
    + exfalso. apply orb_true_elim in Htest as [Hd|Hd].
      * apply H2. apply (mod_eqb_divide n 2); [lia|exact Hd].
      * apply H3. apply (mod_eqb_divide n 3); [lia|exact Hd].
    + destruct (is_prime_loop_false_candidate _ _ _ Hb) as (j & Hj & Hsq & Hdiv).
      exists (j + 1). replace (6 * (j + 1) - 1) with (5 + 6 * j) by lia.
      replace (6 * (j + 1) + 1) with (5 + 6 * j + 2) by lia.
      split; [lia|]. split; [exact Hsq|].
      destruct Hdiv as [Hd|Hd]; [left|right]; apply Z.mod_divide; auto with lia.
  - intros (k & Hk & Hsq & Hdiv).
    destruct (is_prime n) eqn:Hp; [|reflexivity]. exfalso.
    apply is_prime_iff in Hp. revert Hp.
    destruct Hdiv as [Hd|Hd].
    + apply (divisor_not_prime n (6 * k - 1)); [nia|exact Hd].
    + apply (divisor_not_prime n (6 * k + 1)); [nia|exact Hd].
Qed.

(** ** [range] and the primes of a range *)

Lemma range_from_seqZ (count : nat) :
  forall start, range_from start 1 count = seqZ start (Z.of_nat count).
Proof.
  induction count as [|count IH]; intros start; [reflexivity|].
  cbn [range_from]. rewrite IH, (seqZ_cons start) by lia.
  do 2 f_equal; lia.
Qed.

Lemma range2_seqZ (start stop : Z) : range2 start stop = seqZ start (stop - start).
Proof.
  unfold range2, range_len. cbn [Z.ltb Z.compare].
  destruct (Z.leb_spec stop start) as [Hle|Hlt].
  - cbn [Z.to_nat range_from]. rewrite seqZ_nil by lia. reflexivity.
  - rewrite range_from_seqZ, Z.div_1_r, Z2Nat.id by (rewrite ?Z.div_1_r; lia).
    f_equal; lia.
Qed.

Lemma range2_In (start stop x : Z) : In x (range2 start stop) <-> start <= x < stop.
Proof.
  rewrite range2_seqZ, <- list_elem_of_In, elem_of_seqZ. lia.
Qed.

Lemma range2_empty (start stop : Z) : stop <= start -> range2 start stop = [].
Proof. intros Hle. rewrite range2_seqZ. apply seqZ_nil. lia. Qed.

Lemma range2_app (a b c : Z) :
  a <= b -> b <= c -> range2 a c = range2 a b ++ range2 b c.
Proof.
  intros Hab Hbc. rewrite !range2_seqZ.
  replace (c - a) with ((b - a) + (c - b)) by lia.
  rewrite seqZ_app by lia. do 2 f_equal; lia.
Qed.

Lemma range_from_lower (step : Z) (count : nat) :
  forall start x, 0 < step -> In x (range_from start step count) -> start <= x.
Proof.
  induction count as [|count IH]; intros start x Hstep Hx; [destruct Hx|].
  destruct Hx as [->|Hx]; [lia|].
  specialize (IH _ _ Hstep Hx). lia.
Qed.

Lemma range_from_sorted (step : Z) (count : nat) :
  forall start, 0 < step -> StronglySorted Z.lt (range_from start step count).
Proof.
  induction count as [|count IH]; intros start Hstep; cbn [range_from]; constructor.
  - apply IH, Hstep.
  - apply List.Forall_forall. intros x Hx.
    apply range_from_lower in Hx; lia.
Qed.

Lemma range2_sorted (start stop : Z) : StronglySorted Z.lt (range2 start stop).
Proof. apply range_from_sorted. lia. Qed.

Lemma filter_StronglySorted {A : Type} (R : A -> A -> Prop) (f : A -> bool) (l : list A) :
  StronglySorted R l -> StronglySorted R (List.filter f l).
Proof.
  induction 1 as [|x l Hl IH Hx]; cbn; [constructor|].
  destruct (f x); [|exact IH].
  constructor; [exact IH|].
  apply List.Forall_forall. intros y Hy. apply filter_In in Hy as [Hy _].
  rewrite List.Forall_forall in Hx. exact (Hx y Hy).
Qed.

Lemma find_primes_in_range_In (start end_ x : Z) :
  In x (find_primes_in_range start end_) <-> start <= x <= end_ /\ is_prime x = true.
Proof.
  unfold find_primes_in_range. rewrite filter_In, range2_In.
  split; intros [Hr Hp]; (split; [lia|exact Hp]).
Qed.

Lemma find_primes_in_range_sorted (start end_ : Z) :
  StronglySorted Z.lt (find_primes_in_range start end_).
Proof. apply filter_StronglySorted, range2_sorted. Qed.

Lemma find_primes_in_range_empty (start end_ : Z) :
  end_ < start -> find_primes_in_range start end_ = [].
Proof.
  intros Hlt. unfold find_primes_in_range. rewrite range2_empty by lia. reflexivity.
Qed.

Lemma find_primes_in_range_app (a b c : Z) :
  a <= b + 1 -> b <= c ->
  find_primes_in_range a c = find_primes_in_range a b ++ find_primes_in_range (b + 1) c.
Proof.
  intros Hab Hbc. unfold find_primes_in_range.
  rewrite (range2_app a (b + 1) (c + 1)) by lia. apply List.filter_app.
Qed.

(** ** The partition *)

Lemma chunk_size_ok (start end_ workers : Z) :
  workers <> 0 ->
  chunk_size start end_ workers = Ok (Z.max 1 ((end_ - start + 1) / workers)).
Proof.
  intros Hw. unfold chunk_size, floordiv.
  destruct (Z.eqb_spec workers 0) as [->|_]; [contradiction|].
  cbn. f_equal. destruct (Z.ltb_spec ((end_ - start + 1) / workers) 1); lia.
Qed.

Lemma range_from_lookup (step : Z) (count : nat) :
  forall start (k : nat) x,
  range_from start step count !! k = Some x <->
  (k < count)%nat /\ x = start + Z.of_nat k * step.
Proof.
  induction count as [|count IH]; intros start k x; cbn [range_from].
  - split; [discriminate|lia].
  - destruct k as [|k]; cbn [lookup list_lookup].
    + split; [intros [= <-]; lia|intros [_ ->]; f_equal; lia].
    + change (range_from (start + step) step count !! k = Some x <->
              (S k < S count)%nat /\ x = start + Z.of_nat (S k) * step).
      rewrite IH. split; intros [Hk ->]; (split; [lia|lia]).
Qed.

(** The chunks built from the starts [s, s + cs, ...], when the last start is
    the last one that fits. *)
Lemma chunks_tiles (end_ cs : Z) (count : nat) :
  forall s, 1 <= cs ->
  (count = 0%nat -> end_ < s) ->
  (count <> 0%nat -> s + (Z.of_nat count - 1) * cs <= end_ < s + Z.of_nat count * cs) ->
  tiles s end_ (List.map (fun i => (i, Z.min (i + cs - 1) end_)) (range_from s cs count)).
Proof.
  induction count as [|count IH]; intros s Hcs Hzero Hpos; cbn [range_from List.map].
  - apply tiles_nil. auto.
  - specialize (Hpos ltac:(lia)).
    destruct count as [|count'] eqn:Hcount.
    + replace (Z.min (s + cs - 1) end_) with end_ by lia.
      apply tiles_cons; [lia|]. apply tiles_nil. lia.
    + rewrite <- Hcount in *.
      assert (1 <= Z.of_nat count) as Hc by lia.
      assert (cs <= (Z.of_nat (S count) - 1) * cs) as Hmul by nia.
      replace (Z.min (s + cs - 1) end_) with (s + cs - 1) by lia.
      apply tiles_cons; [lia|].
      replace (s + cs - 1 + 1) with (s + cs) by lia.
      apply IH; [exact Hcs|lia|]. intros _. nia.
Qed.

Lemma ranges_tiles (start end_ cs : Z) :
  1 <= cs ->
  exists chunks, ranges start end_ cs = Ok chunks /\ tiles start end_ chunks.
Proof.
  intros Hcs. unfold ranges, range3.
  destruct (Z.eqb_spec cs 0) as [->|_]; [lia|].
  cbn [mbind result_bind mret result_ret]. eexists; split; [reflexivity|].
  apply chunks_tiles; [exact Hcs| |]; unfold range_len;
    destruct (Z.ltb_spec 0 cs) as [_|]; try lia;
    destruct (Z.leb_spec (end_ + 1) start) as [Hle|Hlt]; try (cbn; lia).
  - intros Hz. exfalso.
    pose proof (Z.div_pos (end_ + 1 - start - 1) cs ltac:(lia) ltac:(lia)). lia.
  - intros _.
    pose proof (Z.div_pos (end_ + 1 - start - 1) cs ltac:(lia) ltac:(lia)) as Hq.
    pose proof (Z.mul_div_le (end_ + 1 - start - 1) cs ltac:(lia)).
    pose proof (Z.mul_succ_div_gt (end_ + 1 - start - 1) cs ltac:(lia)).
    rewrite Z2Nat.id by lia. nia.
Qed.

Lemma ranges_lookup (start end_ cs : Z) (chunks : list (Z * Z)) (k : nat) (a b : Z) :
  ranges start end_ cs = Ok chunks -> chunks !! k = Some (a, b) ->
  a = start + Z.of_nat k * cs /\ b = Z.min (a + cs - 1) end_.
Proof.
  unfold ranges, range3. destruct (cs =? 0); [discriminate|].
  cbn [mbind result_bind mret result_ret]. intros [= <-] Hk.
  change (List.map ?f ?l) with (f <$> l) in Hk.
  rewrite list_lookup_fmap in Hk.
  destruct (range_from start cs _ !! k) as [x|] eqn:Hx; [|discriminate].
  cbn in Hk. injection Hk as <- <-.
  apply range_from_lookup in Hx as [_ ->]. split; reflexivity.
Qed.

(** *** What a tiling gives *)

Lemma tiles_bounds (lo hi : Z) (chunks : list (Z * Z)) :
  tiles lo hi chunks ->
  forall k a b, chunks !! k = Some (a, b) -> lo <= a /\ a <= b /\ b <= hi.
Proof.
  induction 1 as [lo hi Hlt|lo hi b rest Hb Hrest IH]; intros k a' b' Hk.
  - destruct k; discriminate.
  - destruct k as [|k]; cbn in Hk.
    + injection Hk as <- <-. lia.
    + specialize (IH _ _ _ Hk). lia.
Qed.

Lemma tiles_contiguous (lo hi : Z) (chunks : list (Z * Z)) :
  tiles lo hi chunks ->
  forall k a b a' b', chunks !! k = Some (a, b) -> chunks !! S k = Some (a', b') ->
  a' = b + 1.
Proof.
  induction 1 as [lo hi Hlt|lo hi b rest Hb Hrest IH]; intros k a1 b1 a2 b2 Hk HSk.
  - destruct k; discriminate.
  - destruct k as [|k]; cbn in Hk, HSk.
    + injection Hk as <- <-.
      inversion Hrest as [|lo' hi' b' rest']; subst; [discriminate|].
      cbn in HSk. injection HSk as <- <-. reflexivity.
    + exact (IH _ _ _ _ _ Hk HSk).
Qed.

Lemma tiles_ends (lo hi : Z) (chunks : list (Z * Z)) :
  tiles lo hi chunks ->
  (forall a b, chunks !! 0%nat = Some (a, b) -> a = lo) /\
  (forall a b, last chunks = Some (a, b) -> b = hi).
Proof.
  induction 1 as [lo hi Hlt|lo hi b rest Hb Hrest [_ IH]]; split; intros a' b' Hk;
    try discriminate.
  - cbn in Hk. injection Hk as <- <-. reflexivity.
  - inversion Hrest as [lo' hi' Hlt|lo' hi' b2 rest' Hb2 Hrest']; subst.
    + cbn in Hk. injection Hk as <- <-. lia.
    + apply (IH a' b'). exact Hk.
Qed.

Lemma tiles_members (lo hi : Z) (chunks : list (Z * Z)) :
  tiles lo hi chunks ->
  concat (List.map chunk_members chunks) = range2 lo (hi + 1).
Proof.
  induction 1 as [lo hi Hlt|lo hi b rest Hb Hrest IH]; cbn [List.map concat].
  - rewrite range2_empty by lia. reflexivity.
  - rewrite IH. unfold chunk_members. cbn [fst snd].
    symmetry. apply range2_app; lia.
Qed.

Lemma tiles_primes (lo hi : Z) (chunks : list (Z * Z)) :
  tiles lo hi chunks ->
  concat (List.map (fun r => find_primes_in_range (fst r) (snd r)) chunks)
  = find_primes_in_range lo hi.
Proof.
  induction 1 as [lo hi Hlt|lo hi b rest Hb Hrest IH]; cbn [List.map concat].
  - rewrite find_primes_in_range_empty by lia. reflexivity.
  - rewrite IH. cbn [fst snd].
    symmetry. apply find_primes_in_range_app; lia.
Qed.

Lemma tiles_cover_once (lo hi : Z) (chunks : list (Z * Z)) :
  tiles lo hi chunks ->
  forall x, lo <= x <= hi ->
  exists! k : nat, exists a b, chunks !! k = Some (a, b) /\ a <= x <= b.
Proof.
  induction 1 as [lo hi Hlt|lo hi b rest Hb Hrest IH]; intros x Hx; [lia|].
  destruct (Z_le_gt_dec x b) as [Hxb|Hxb].
  - exists 0%nat. split.
    + exists lo, b. split; [reflexivity|lia].
    + intros [|k] (a' & b' & Hk & Hin); [reflexivity|]. cbn in Hk.
      pose proof (tiles_bounds _ _ _ Hrest _ _ _ Hk). lia.
  - destruct (IH x ltac:(lia)) as [k [(a' & b' & Hk & Hin) Huniq]].
    exists (S k). split.
    + exists a', b'. split; [exact Hk|exact Hin].
    + intros [|k'] (a2 & b2 & Hk' & Hin').
      * cbn in Hk'. injection Hk' as <- <-. lia.
      * f_equal. apply Huniq. exists a2, b2. split; [exact Hk'|exact Hin'].
Qed.

(** ** Sorting and the order of completion *)

Lemma concat_Permutation {A : Type} (l l' : list (list A)) :
  l ≡ₚ l' -> concat l ≡ₚ concat l'.
Proof.
  induction 1 as [|x l l' _ IH|x y l|l l' l'' _ IH1 _ IH2]; cbn [concat].
  - reflexivity.
  - rewrite IH. reflexivity.
  - rewrite !app_assoc. apply Permutation_app_tail, Permutation_app_comm.
  - etransitivity; eassumption.
Qed.

Lemma StronglySorted_lt_le (l : list Z) : StronglySorted Z.lt l -> Sorted Z.le l.
Proof.
  intros Hl. apply StronglySorted_Sorted.
  induction Hl as [|x l Hl IH Hx]; constructor; [exact IH|].
  apply List.Forall_forall. rewrite List.Forall_forall in Hx.
  intros y Hy. specialize (Hx y Hy). lia.
Qed.

(** Sorting any rearrangement of a strictly ascending list gives that list. *)
Lemma sorted_Permutation (l l' : list Z) :
  l ≡ₚ l' -> StronglySorted Z.lt l' -> sorted l = l'.
Proof.
  intros Hperm Hl'. unfold sorted.
  apply (Sorted_unique Z.le).
  - apply Sorted_merge_sort; apply _.
  - apply StronglySorted_lt_le, Hl'.
  - rewrite merge_sort_Permutation. exact Hperm.
Qed.

Lemma sorted_Sorted (l : list Z) : Sorted Z.le (sorted l).
Proof. apply Sorted_merge_sort; apply _. Qed.

Lemma sorted_nil : sorted [] = [].
Proof. reflexivity. Qed.

(** ** The strategies *)

(** One step of a computation in [M] or [result]. *)
Ltac run := cbv beta iota zeta delta [mbind M_bind result_bind time_time lift mret M_ret result_ret completion_order].

Section Strategies.
Context `{Runtime}.

Lemma find_primes_sequential_ok (start end_ : Z) (s : nat) :
  find_primes_sequential start end_ s
  = Ok (find_primes_in_range start end_, time_sub (clock (S s)) (clock s), S (S s)).
Proof. reflexivity. Qed.

Lemma ThreadPoolExecutor_ok (n : Z) : 1 <= n -> ThreadPoolExecutor n = Ok tt.
Proof. intros Hn. unfold ThreadPoolExecutor. destruct (Z.leb_spec n 0); [lia|reflexivity]. Qed.

Lemma ProcessPoolExecutor_ok (n : Z) :
  1 <= n <= pool_max_workers -> ProcessPoolExecutor n = Ok tt.
Proof.
  intros Hn. unfold ProcessPoolExecutor. destruct (Z.leb_spec n 0); [lia|].
  destruct (Z.ltb_spec pool_max_workers n); [lia|reflexivity].
Qed.

Lemma ProcessPoolExecutor_refuses (n : Z) :
  pool_max_workers < n -> ProcessPoolExecutor n = Raise pool_refusal.
Proof.
  intros Hn. pose proof pool_max_workers_min. unfold ProcessPoolExecutor.
  destruct (Z.leb_spec n 0); [lia|].
  destruct (Z.ltb_spec pool_max_workers n); [reflexivity|lia].
Qed.

(** With at least one worker the thread strategy returns, whatever the order
    of completion, the list the sequential strategy returns. *)
Lemma find_primes_threading_ok (start end_ num_threads : Z) (s : nat) :
  1 <= num_threads ->
  find_primes_threading start end_ num_threads s
  = Ok (find_primes_in_range start end_, time_sub (clock (S s)) (clock s), S (S s)).
Proof.
  intros Hn. unfold find_primes_threading.
  destruct (ranges_tiles start end_ (Z.max 1 ((end_ - start + 1) / num_threads)) ltac:(lia))
    as (chunks & Hranges & Htiles).
  run. rewrite chunk_size_ok by lia. run.
  rewrite ThreadPoolExecutor_ok by exact Hn. run.
  rewrite Hranges. run. do 2 f_equal. f_equal.
  apply sorted_Permutation; [|apply find_primes_in_range_sorted].
  rewrite <- (tiles_primes _ _ _ Htiles).
  apply concat_Permutation, Permutation_map, schedule_perm.
Qed.

(** The process strategy on an empty range submits nothing and returns, when
    the platform accepts a pool of that size. *)
Lemma find_primes_multiprocessing_empty (start end_ num_processes : Z) (s : nat) :
  end_ < start -> 1 <= num_processes <= pool_max_workers ->
  find_primes_multiprocessing start end_ num_processes s
  = Ok ([], time_sub (clock (S s)) (clock s), S (S s)).
Proof.
  intros Hempty Hn. unfold find_primes_multiprocessing.
  destruct (ranges_tiles start end_ (Z.max 1 ((end_ - start + 1) / num_processes)) ltac:(lia))
    as (chunks & Hranges & Htiles).
  inversion Htiles as [lo hi Hlt|lo hi b rest Hb Hrest]; subst; [|lia].
  run. rewrite chunk_size_ok by lia. run. rewrite Hranges. run.
  rewrite ProcessPoolExecutor_ok by exact Hn. reflexivity.
Qed.

(** On a range that is not empty it raises: the tasks carry a [lambda]. *)
Lemma find_primes_multiprocessing_raises (start end_ num_processes : Z) (s : nat) :
  start <= end_ -> 1 <= num_processes <= pool_max_workers ->
  find_primes_multiprocessing start end_ num_processes s = Raise PicklingError.
Proof.
  intros Hrange Hn. unfold find_primes_multiprocessing.
  destruct (ranges_tiles start end_ (Z.max 1 ((end_ - start + 1) / num_processes)) ltac:(lia))
    as (chunks & Hranges & Htiles).
  inversion Htiles as [lo hi Hlt|lo hi b rest Hb Hrest]; subst; [lia|].
  run. rewrite chunk_size_ok by lia. run. rewrite Hranges. run.
  rewrite ProcessPoolExecutor_ok by exact Hn. reflexivity.
Qed.

(** What the process strategy computes from the task results when the pool
    accepts the function: again the sequential list. *)
Lemma executor_map_picklable (fn : (Z * Z) -> list Z) (lo hi : Z) (chunks : list (Z * Z)) :
  (forall r, fn r = find_primes_in_range (fst r) (snd r)) ->
  tiles lo hi chunks ->
  exists results, executor_map (Callable fn true) chunks = Ok results /\
                  sorted (concat results) = find_primes_in_range lo hi.
Proof.
  intros Hfn Htiles. exists (List.map fn chunks). split.
  - destruct chunks; reflexivity.
  - apply sorted_Permutation; [|apply find_primes_in_range_sorted].
    rewrite <- (tiles_primes _ _ _ Htiles).
    rewrite (map_ext _ _ Hfn). reflexivity.
Qed.

(** A negative worker count passes the clamp and is refused by the pool. *)
Lemma find_primes_threading_negative (start end_ num_threads : Z) (s : nat) :
  num_threads < 0 -> find_primes_threading start end_ num_threads s = Raise ValueError.
Proof.
  intros Hneg. unfold find_primes_threading. run. rewrite chunk_size_ok by lia. run.
  unfold ThreadPoolExecutor. destruct (Z.leb_spec num_threads 0); [reflexivity|lia].
Qed.

Lemma find_primes_multiprocessing_negative (start end_ num_processes : Z) (s : nat) :
  num_processes < 0 ->
  find_primes_multiprocessing start end_ num_processes s = Raise ValueError.
Proof.
  intros Hneg. unfold find_primes_multiprocessing. run. rewrite chunk_size_ok by lia. run.
  destruct (ranges_tiles start end_ (Z.max 1 ((end_ - start + 1) / num_processes))
              ltac:(lia)) as (chunks & -> & _). run.
  unfold ProcessPoolExecutor. destruct (Z.leb_spec num_processes 0); [reflexivity|lia].
Qed.

(** A pool the platform refuses is refused before anything is submitted. *)
Lemma find_primes_multiprocessing_refused (start end_ num_processes : Z) (s : nat) :
  pool_max_workers < num_processes ->
  find_primes_multiprocessing start end_ num_processes s = Raise pool_refusal.
Proof.
  intros Hn. pose proof pool_max_workers_min. unfold find_primes_multiprocessing.
  destruct (ranges_tiles start end_ (Z.max 1 ((end_ - start + 1) / num_processes)) ltac:(lia))
    as (chunks & Hranges & _).
  run. rewrite chunk_size_ok by lia. run. rewrite Hranges. run.
  rewrite ProcessPoolExecutor_refuses by exact Hn. reflexivity.
Qed.

End Strategies.

(** ** The harness *)

(** Look a literal key up in a dict built by insertions of literal keys. *)
Ltac lookup_key :=
  repeat (rewrite lookup_insert_ne by discriminate);
  rewrite lookup_insert_eq; reflexivity.

(** The keys of such a dict are among the listed literals. *)
Ltac keys_within :=
  rewrite !dom_insert_L, dom_empty_L; intros k;
  rewrite !elem_of_union, !elem_of_singleton, elem_of_empty; tauto.

Section Harness.
Context `{Runtime}.

(** The result of [benchmark_all_methods] whenever it returns. *)
Lemma benchmark_all_methods_returns (start end_ workers : Z) (s s' : nat)
    (results : gmap string entry) (primes : list Z) :
  benchmark_all_methods start end_ workers s = Ok (results, primes, s') ->
  exists primes_thread duration_thread s1 primes_multi duration_multi,
    let duration := time_sub (clock (S s)) (clock s) in
    primes = find_primes_in_range start end_ /\
    find_primes_threading start end_ workers (S (S s))
      = Ok (primes_thread, duration_thread, s1) /\
    time_is_zero duration_thread = false /\
    find_primes_multiprocessing start end_ workers s1
      = Ok (primes_multi, duration_multi, s') /\
    time_is_zero duration_multi = false /\
    results =
      <["multiprocessing" := Strategy {| primes_found := len primes_multi;
                                         execution_time := duration_multi;
                                         workers := workers;
                                         speedup := Some (time_div duration duration_multi) |}]>
      (<["threading" := Strategy {| primes_found := len primes_thread;
                                    execution_time := duration_thread;
                                    workers := workers;
                                    speedup := Some (time_div duration duration_thread) |}]>
      (<["sequential" := Strategy {| primes_found := len primes;
                                     execution_time := duration;
                                     workers := 1;
                                     speedup := None |}]> ∅)).
Proof.
  unfold benchmark_all_methods. run. rewrite find_primes_sequential_ok.
  destruct (find_primes_threading start end_ workers (S (S s)))
    as [[[primes_thread duration_thread] s1]|e] eqn:Hthread; [|discriminate].
  unfold truediv.
  destruct (time_is_zero duration_thread) eqn:Hzero_thread; [discriminate|].
  destruct (find_primes_multiprocessing start end_ workers s1)
    as [[[primes_multi duration_multi] s2]|e] eqn:Hmulti; [|discriminate].
  destruct (time_is_zero duration_multi) eqn:Hzero_multi; [discriminate|].
  intros [= <- <- <-].
  exists primes_thread, duration_thread, s1, primes_multi, duration_multi.
  repeat split; reflexivity || assumption.
Qed.

(** On a range that is not empty the harness never gets past the process
    strategy. *)
Lemma benchmark_all_methods_raises (start end_ workers : Z) (s : nat) :
  start <= end_ -> 1 <= workers <= pool_max_workers ->
  benchmark_all_methods start end_ workers s
  = Raise (if time_is_zero (time_sub (clock (S (S (S s)))) (clock (S (S s))))
           then ZeroDivisionError else PicklingError).
Proof.
  intros Hrange Hw. unfold benchmark_all_methods. run.
  rewrite find_primes_sequential_ok, find_primes_threading_ok by lia.
  unfold truediv. destruct (time_is_zero _); [reflexivity|].
  rewrite find_primes_multiprocessing_raises by assumption. reflexivity.
Qed.

End Harness.

(** The harness does return on an empty range, here [[10, 5]] with 4 workers:
    three records, no primes, and speedups [1 / 5] and [1 / 9] from the
    sample clock. *)
Example benchmark_all_methods_10_5_4 :
  @benchmark_all_methods sample_runtime 10 5 4 0%nat
  = Ok (<["multiprocessing" :=
            @Strategy sample_runtime
              (@Build_BenchmarkRecord sample_runtime 0 (QArith_base.Qmake 9 1) 4
                 (Some (QArith_base.Qmake 1 9)))]>
        (<["threading" :=
             @Strategy sample_runtime
               (@Build_BenchmarkRecord sample_runtime 0 (QArith_base.Qmake 5 1) 4
                  (Some (QArith_base.Qmake 1 5)))]>
        (<["sequential" :=
             @Strategy sample_runtime
               (@Build_BenchmarkRecord sample_runtime 0 (QArith_base.Qmake 1 1) 1
                  None)]> ∅)),
        [], 6%nat).
Proof. reflexivity. Qed.

(** ** The claims *)

(** C1. [is_prime n] is [true] exactly when [n] is prime.  It is [false] for
    [n <= 1], [true] for 2 and 3, and [false] for a larger multiple of 2 or
    of 3.  For any other [n] the loop goes through the candidates
    [6k - 1 = 5, 11, 17, ...] as long as [(6k - 1)^2 <= n] and tests [6k - 1]
    and [6k + 1]: the answer is [false] exactly when one of these divides [n],
    and [true] when the candidates are used up.  On 1, ..., 11, 100, 101, 1000
    and 1009 it gives the known truth table. *)
Theorem is_prime_correct :
  (forall n, is_prime n = true <-> Z.prime n) /\
  (forall n, is_prime n = true <-> prime n) /\
  (forall n, n <= 1 -> is_prime n = false) /\
  (forall n, n = 2 \/ n = 3 -> is_prime n = true) /\
  (forall n, 3 < n -> (2 | n) \/ (3 | n) -> is_prime n = false) /\
  (forall n, 3 < n -> ~ (2 | n) -> ~ (3 | n) ->
     (is_prime n = false <->
      exists k, 1 <= k /\ (6 * k - 1) * (6 * k - 1) <= n /\
                ((6 * k - 1 | n) \/ (6 * k + 1 | n)))) /\
  List.map is_prime [1; 2; 3; 4; 5; 6; 7; 8; 9; 10; 11; 100; 101; 1000; 1009]
  = [false; true; true; false; true; false; true; false; false; false; true;
     false; true; false; true].
Proof.
  split; [exact is_prime_iff|].
  split; [intros n; rewrite is_prime_iff; apply prime_alt|].
  split.
  { intros n Hn. unfold is_prime, is_prime_fuel.
    destruct (Z.leb_spec n 1); [reflexivity|lia]. }
  split; [intros n [->| ->]; reflexivity|].
  split.
  { intros n Hn Hdiv. destruct (is_prime n) eqn:Hp; [|reflexivity]. exfalso.
    apply is_prime_iff in Hp. revert Hp.
    destruct Hdiv as [Hd|Hd]; [apply (divisor_not_prime n 2)|apply (divisor_not_prime n 3)];
      (lia || exact Hd). }
  split; [exact is_prime_false_iff_candidate|].
  vm_compute. reflexivity.
Qed.

(** C2. [find_primes_in_range start end] is strictly ascending, each of its
    elements passes [is_prime] and lies in [[start, end]], and it holds every
    integer of [[start, end]] that passes [is_prime].  In [[1, 100]] there are
    25 primes, the first five are 2, 3, 5, 7, 11 and the last three are 83, 89,
    97; in [[1, 1000]] there are 168. *)
Theorem find_primes_in_range_spec :
  (forall start end_,
     StronglySorted Z.lt (find_primes_in_range start end_) /\
     (forall x, In x (find_primes_in_range start end_) ->
                is_prime x = true /\ start <= x <= end_) /\
     (forall x, start <= x <= end_ -> is_prime x = true ->
                In x (find_primes_in_range start end_))) /\
  length (find_primes_in_range 1 100) = 25%nat /\
  take 5 (find_primes_in_range 1 100) = [2; 3; 5; 7; 11] /\
  drop (length (find_primes_in_range 1 100) - 3) (find_primes_in_range 1 100)
  = [83; 89; 97] /\
  length (find_primes_in_range 1 1000) = 168%nat.
Proof.
  split.
  { intros start end_. split; [apply find_primes_in_range_sorted|]. split.
    - intros x Hx. apply find_primes_in_range_In in Hx as [Hr Hp]. auto.
    - intros x Hr Hp. apply find_primes_in_range_In. auto. }
  repeat split; vm_compute; reflexivity.
Qed.

(** C3. On the range [[1, 1000]] with 4 workers the sequential and the thread
    strategy return the same ascending list of 168 primes, whatever the order
    in which the threads finish; the process strategy raises instead of
    returning that list. *)
Theorem strategies_on_1_1000 `{Runtime} (s : nat) :
  let duration := time_sub (clock (S s)) (clock s) in
  find_primes_sequential 1 1000 s = Ok (find_primes_in_range 1 1000, duration, S (S s)) /\
  find_primes_threading 1 1000 4 s = Ok (find_primes_in_range 1 1000, duration, S (S s)) /\
  StronglySorted Z.lt (find_primes_in_range 1 1000) /\
  length (find_primes_in_range 1 1000) = 168%nat /\
  find_primes_multiprocessing 1 1000 4 s = Raise PicklingError.
Proof.
  cbv zeta. pose proof pool_max_workers_min as Hpool.
  split; [apply find_primes_sequential_ok|].
  split; [apply find_primes_threading_ok; lia|].
  split; [apply find_primes_in_range_sorted|].
  split; [vm_compute; reflexivity|].
  apply find_primes_multiprocessing_raises; lia.
Qed.

(** C4. With at least one worker the chunk size is
    [max 1 ((end - start + 1) / workers)] and the chunks are
    [(a, min (a + chunk_size - 1) end)] for [a = start, start + chunk_size, ...].
    No chunk is empty; each chunk starts right after the one before it, so
    they ascend and do not overlap; written out one after the other they are
    exactly [start, ..., end], so every integer of the range lies in exactly
    one chunk and no chunk leaves the range; and an empty range gives no
    chunk. *)
Theorem partition_spec (start end_ workers : Z) :
  1 <= workers ->
  exists cs chunks,
    chunk_size start end_ workers = Ok cs /\
    cs = Z.max 1 ((end_ - start + 1) / workers) /\
    ranges start end_ cs = Ok chunks /\
    (forall (k : nat) a b, chunks !! k = Some (a, b) ->
       a = start + Z.of_nat k * cs /\ b = Z.min (a + cs - 1) end_ /\
       a <= b /\ start <= a /\ b <= end_) /\
    (forall (k : nat) a b a' b',
       chunks !! k = Some (a, b) -> chunks !! S k = Some (a', b') -> a' = b + 1) /\
    concat (List.map chunk_members chunks) = range2 start (end_ + 1) /\
    (forall x, start <= x <= end_ ->
       exists! k : nat, exists a b, chunks !! k = Some (a, b) /\ a <= x <= b) /\
    (start <= end_ ->
       exists b e, chunks !! 0%nat = Some (start, b) /\ last chunks = Some (e, end_)) /\
    (end_ < start -> chunks = []).
Proof.
  intros Hw.
  destruct (ranges_tiles start end_ (Z.max 1 ((end_ - start + 1) / workers)) ltac:(lia))
    as (chunks & Hranges & Htiles).
  exists (Z.max 1 ((end_ - start + 1) / workers)), chunks.
  split; [apply chunk_size_ok; lia|]. split; [reflexivity|]. split; [exact Hranges|].
  split.
  { intros k a b Hk.
    destruct (ranges_lookup _ _ _ _ _ _ _ Hranges Hk) as [Ha Hb].
    pose proof (tiles_bounds _ _ _ Htiles _ _ _ Hk). auto with lia. }
  split; [exact (tiles_contiguous _ _ _ Htiles)|].
  split; [exact (tiles_members _ _ _ Htiles)|].
  split; [exact (tiles_cover_once _ _ _ Htiles)|].
  split.
  - intros Hrange. destruct (tiles_ends _ _ _ Htiles) as [_ Hlast].
    inversion Htiles as [lo hi Hlt|lo hi b rest Hb Hrest]; subst; [lia|].
    destruct (last ((start, b) :: rest)) as [[e e']|] eqn:Hl.
    + exists b, e. split; [reflexivity|]. rewrite (Hlast e e' eq_refl). reflexivity.
    + apply last_None in Hl. discriminate.
  - intros Hempty. inversion Htiles as [lo hi Hlt|lo hi b rest Hb Hrest]; subst;
      [reflexivity|lia].
Qed.

Lemma partition_spec_10_3 :
  1 <= 3 /\
  exists cs chunks,
    chunk_size 1 10 3 = Ok cs /\
    cs = Z.max 1 ((10 - 1 + 1) / 3) /\
    ranges 1 10 cs = Ok chunks /\
    (forall (k : nat) a b, chunks !! k = Some (a, b) ->
       a = 1 + Z.of_nat k * cs /\ b = Z.min (a + cs - 1) 10 /\
       a <= b /\ 1 <= a /\ b <= 10) /\
    (forall (k : nat) a b a' b',
       chunks !! k = Some (a, b) -> chunks !! S k = Some (a', b') -> a' = b + 1) /\
    concat (List.map chunk_members chunks) = range2 1 (10 + 1) /\
    (forall x, 1 <= x <= 10 ->
       exists! k : nat, exists a b, chunks !! k = Some (a, b) /\ a <= x <= b) /\
    (1 <= 10 ->
       exists b e, chunks !! 0%nat = Some (1, b) /\ last chunks = Some (e, 10)) /\
    (10 < 1 -> chunks = []).
Proof. split; [lia|apply (partition_spec 1 10 3); lia]. Defined.

(** C5, as the code has it.  On an empty range ([end < start])
    [find_primes_in_range] and the sequential strategy return the empty list.
    The thread strategy does so with at least one worker, and the process
    strategy with at least one worker and no more than the platform's largest
    process pool.  With any other worker count the fan-out strategies raise
    on an empty range too: [ZeroDivisionError] with no worker, [ValueError]
    with a negative count and, for the process strategy, the platform's
    refusal of a pool that is too large.  [find_primes_in_range 0 1] and
    [find_primes_in_range 10 5] are empty. *)
Theorem empty_range_spec `{Runtime} (start end_ workers : Z) (s : nat) :
  end_ < start ->
  let duration := time_sub (clock (S s)) (clock s) in
  find_primes_in_range start end_ = [] /\
  find_primes_sequential start end_ s = Ok ([], duration, S (S s)) /\
  find_primes_threading start end_ workers s
  = (if workers =? 0 then Raise ZeroDivisionError
     else if workers <? 0 then Raise ValueError
     else Ok ([], duration, S (S s))) /\
  find_primes_multiprocessing start end_ workers s
  = (if workers =? 0 then Raise ZeroDivisionError
     else if workers <? 0 then Raise ValueError
     else if pool_max_workers <? workers then Raise pool_refusal
     else Ok ([], duration, S (S s))) /\
  find_primes_in_range 0 1 = [] /\
  find_primes_in_range 10 5 = [].
Proof.
  intros Hempty. cbv zeta.
  pose proof (find_primes_in_range_empty start end_ Hempty) as Hnil.
  split; [exact Hnil|].
  split; [rewrite find_primes_sequential_ok, Hnil; reflexivity|].
  destruct (Z.eqb_spec workers 0) as [->|Hnz]; [repeat split|].
  destruct (Z.ltb_spec workers 0) as [Hneg|Hpos].
  { split; [apply find_primes_threading_negative, Hneg|].
    split; [apply find_primes_multiprocessing_negative, Hneg|]. split; reflexivity. }
  split; [rewrite find_primes_threading_ok, Hnil by lia; reflexivity|].
  split; [|split; reflexivity].
  destruct (Z.ltb_spec pool_max_workers workers) as [Hbig|Hfits].
  - apply find_primes_multiprocessing_refused, Hbig.
  - apply find_primes_multiprocessing_empty; lia.
Qed.

Lemma empty_range_spec_10_5 :
  5 < 10 /\
  find_primes_in_range 10 5 = [] /\
  @find_primes_sequential sample_runtime 10 5 0%nat
    = Ok ([], time_sub (clock 1%nat) (clock 0%nat), 2%nat) /\
  @find_primes_threading sample_runtime 10 5 4 0%nat
    = Ok ([], time_sub (clock 1%nat) (clock 0%nat), 2%nat) /\
  @find_primes_multiprocessing sample_runtime 10 5 4 0%nat
    = Ok ([], time_sub (clock 1%nat) (clock 0%nat), 2%nat) /\
  find_primes_in_range 0 1 = [] /\
  find_primes_in_range 10 5 = [].
Proof.
  split; [lia|].
  apply (@empty_range_spec sample_runtime 10 5 4 0%nat); lia.
Defined.

(** C5, the claim as stated fails: on the empty range [[10, 5]] the fan-out
    strategies raise with no worker, with a negative worker count and, for
    the process strategy on Linux, with [2^31 - 1] workers. *)
Lemma empty_range_invalid_workers_raise :
  @find_primes_threading sample_runtime 10 5 0 0%nat = Raise ZeroDivisionError /\
  @find_primes_multiprocessing sample_runtime 10 5 0 0%nat = Raise ZeroDivisionError /\
  @find_primes_threading sample_runtime 10 5 (-1) 0%nat = Raise ValueError /\
  @find_primes_multiprocessing sample_runtime 10 5 (-1) 0%nat = Raise ValueError /\
  @find_primes_multiprocessing sample_runtime 10 5 2147483647 0%nat = Raise OverflowError.
Proof. repeat split. Qed.

(** C6, as the code has it.  With [worker_count = 0] the floor division of the
    chunk-size computation raises [ZeroDivisionError] in both fan-out
    strategies, for every range: the clamp comes after the division and is
    never reached.  For every other worker count the division succeeds and
    the chunk size is [max 1 ((end - start + 1) / worker_count)], at least 1. *)
Theorem chunk_size_zero_workers_raises `{Runtime} (start end_ : Z) (s : nat) :
  chunk_size start end_ 0 = Raise ZeroDivisionError /\
  find_primes_threading start end_ 0 s = Raise ZeroDivisionError /\
  find_primes_multiprocessing start end_ 0 s = Raise ZeroDivisionError /\
  (forall workers, workers <> 0 ->
     chunk_size start end_ workers = Ok (Z.max 1 ((end_ - start + 1) / workers)) /\
     1 <= Z.max 1 ((end_ - start + 1) / workers)).
Proof.
  split; [reflexivity|]. split; [reflexivity|]. split; [reflexivity|].
  intros workers Hw. split; [apply chunk_size_ok, Hw|lia].
Qed.

(** C6, the claim as stated fails: on the range [[1, 10]] with
    [worker_count = 0] both fan-out strategies fail with a division error in
    the chunk-size computation. *)
Lemma zero_workers_division_error :
  chunk_size 1 10 0 = Raise ZeroDivisionError /\
  @find_primes_threading sample_runtime 1 10 0 0%nat = Raise ZeroDivisionError /\
  @find_primes_multiprocessing sample_runtime 1 10 0 0%nat = Raise ZeroDivisionError.
Proof. repeat split. Qed.

(** C7. On a range that is not empty [benchmark_all_methods] returns no
    record at all: after the sequential and the thread strategy it raises,
    at the latest in the process strategy.  On [[1, 100]] with 4 workers it
    raises [ZeroDivisionError] when the thread strategy's elapsed time is zero
    and [PicklingError] otherwise.  Whenever it does return, the result holds
    exactly the three records, the sequential one with [workers = 1] and no
    speedup, the other two with the sequential time divided by their own. *)
Theorem benchmark_all_methods_1_100_4 `{Runtime} (s : nat) :
  benchmark_all_methods 1 100 4 s
  = Raise (if time_is_zero (time_sub (clock (S (S (S s)))) (clock (S (S s))))
           then ZeroDivisionError else PicklingError) /\
  @benchmark_all_methods sample_runtime 1 100 4 0%nat = Raise PicklingError /\
  (forall start end_ workers results primes s',
     benchmark_all_methods start end_ workers s = Ok (results, primes, s') ->
     dom results = {[ "sequential"; "threading"; "multiprocessing" ]} /\
     exists primes_thread duration_thread primes_multi duration_multi,
       let duration := time_sub (clock (S s)) (clock s) in
       results !! "sequential"
         = Some (Strategy {| primes_found := len primes;
                             execution_time := duration;
                             workers := 1;
                             speedup := None |}) /\
       results !! "threading"
         = Some (Strategy {| primes_found := len primes_thread;
                             execution_time := duration_thread;
                             workers := workers;
                             speedup := Some (time_div duration duration_thread) |}) /\
       results !! "multiprocessing"
         = Some (Strategy {| primes_found := len primes_multi;
                             execution_time := duration_multi;
                             workers := workers;
                             speedup := Some (time_div duration duration_multi) |})).
Proof.
  pose proof pool_max_workers_min as Hpool.
  split; [apply benchmark_all_methods_raises; lia|].
  split; [reflexivity|].
  intros start end_ workers results primes s' Hret.
  apply benchmark_all_methods_returns in Hret
    as (p_thread & d_thread & s1 & p_multi & d_multi & Hp & _ & _ & _ & _ & ->).
  split.
  - rewrite !dom_insert_L, dom_empty_L. apply set_eq. intros k.
    rewrite !elem_of_union, !elem_of_singleton, elem_of_empty. tauto.
  - exists p_thread, d_thread, p_multi, d_multi. cbv zeta.
    repeat split; lookup_key.
Qed.

(** C8, as the code has it.  Whenever [main] returns, the dict it built has a
    ['configuration'] entry with the range bounds and the machine's CPU count
    ([os.cpu_count()]), whatever the worker count of the run; its other keys
    are strategy names and ['primes']; and the worker count used is the
    [workers] field of each strategy's record (1 for the sequential one). *)
Theorem main_configuration_echo `{Runtime} (args : Args) (s s' : nat)
    (results : gmap string entry) :
  main args s = Ok (results, s') ->
  results !! "configuration"
    = Some (Config {| start_range := args_start args;
                      end_range := args_end args;
                      cpu_count := os_cpu_count |}) /\
  dom results ⊆ {[ "sequential"; "threading"; "multiprocessing";
                   "configuration"; "primes" ]} /\
  match args_method args with
  | All =>
      exists r_seq r_thread r_multi,
        results !! "sequential" = Some (Strategy r_seq) /\
        results !! "threading" = Some (Strategy r_thread) /\
        results !! "multiprocessing" = Some (Strategy r_multi) /\
        workers r_seq = 1 /\
        workers r_thread = args_workers args /\
        workers r_multi = args_workers args
  | method =>
      exists r,
        results !! method_name method = Some (Strategy r) /\
        workers r = match method with Sequential => 1 | _ => args_workers args end /\
        speedup r = None
  end.
Proof.
  unfold main. destruct (args_method args) eqn:Hmethod; run.
  - rewrite find_primes_sequential_ok.
    destruct (args_save_primes args); intros Heq; injection Heq as Hres _; subst results;
      (split; [lookup_key|]); (split; [keys_within|]);
      eexists; (split; [lookup_key|]); split; reflexivity.
  - destruct (find_primes_threading _ _ _ s) as [[[primes duration] s1]|e]; [|discriminate].
    destruct (args_save_primes args); intros Heq; injection Heq as Hres _; subst results;
      (split; [lookup_key|]); (split; [keys_within|]);
      eexists; (split; [lookup_key|]); split; reflexivity.
  - destruct (find_primes_multiprocessing _ _ _ s) as [[[primes duration] s1]|e]; [|discriminate].
    destruct (args_save_primes args); intros Heq; injection Heq as Hres _; subst results;
      (split; [lookup_key|]); (split; [keys_within|]);
      eexists; (split; [lookup_key|]); split; reflexivity.
  - destruct (benchmark_all_methods _ _ _ s) as [[[results0 primes] s1]|e] eqn:Hbench;
      [|discriminate].
    apply benchmark_all_methods_returns in Hbench
      as (p_thread & d_thread & s2 & p_multi & d_multi & _ & _ & _ & _ & _ & ->).
    destruct (args_save_primes args); intros Heq; injection Heq as Hres _; subst results;
      (split; [lookup_key|]); (split; [keys_within|]);
      do 3 eexists; repeat (split; [lookup_key|]); repeat split; reflexivity.
Qed.

Lemma main_configuration_echo_sample :
  @main sample_runtime sample_args 0%nat = Ok (sample_results, 2%nat) /\
  sample_results !! "configuration"
    = Some (Config {| start_range := 1; end_range := 20; cpu_count := Some 8 |}) /\
  dom sample_results ⊆ {[ "sequential"; "threading"; "multiprocessing";
                          "configuration"; "primes" ]} /\
  exists r,
    sample_results !! "threading" = Some (Strategy r) /\
    workers r = 2 /\
    speedup r = None.
Proof.
  split; [reflexivity|].
  apply (@main_configuration_echo sample_runtime sample_args 0%nat 2%nat).
  reflexivity.
Defined.

(** C8, the claim as stated fails: a run with 2 workers on a machine with 8
    CPUs echoes the range bounds and the 8, and the 2 is nowhere in the
    configuration. *)
Lemma configuration_echo_not_worker_count :
  @main sample_runtime sample_args 0%nat = Ok (sample_results, 2%nat) /\
  args_workers sample_args = 2 /\
  sample_results !! "configuration"
    = Some (Config {| start_range := 1; end_range := 20; cpu_count := Some 8 |}).
Proof. repeat split. Qed.

(** C9. With 20 workers on the range [[1, 10]] the process strategy raises
    instead of returning [[2; 3; 5; 7]], which the thread strategy does
    return.  With one worker on [[1, 100]] the thread strategy returns the 25
    primes of the sequential strategy, and the process strategy raises. *)
Theorem worker_count_edge_cases `{Runtime} (s : nat) :
  let duration := time_sub (clock (S s)) (clock s) in
  find_primes_multiprocessing 1 10 20 s = Raise PicklingError /\
  find_primes_threading 1 10 20 s = Ok ([2; 3; 5; 7], duration, S (S s)) /\
  find_primes_sequential 1 100 s = Ok (find_primes_in_range 1 100, duration, S (S s)) /\
  find_primes_threading 1 100 1 s = Ok (find_primes_in_range 1 100, duration, S (S s)) /\
  length (find_primes_in_range 1 100) = 25%nat /\
  find_primes_multiprocessing 1 100 1 s = Raise PicklingError.
Proof.
  cbv zeta. pose proof pool_max_workers_min as Hpool.
  split; [apply find_primes_multiprocessing_raises; lia|].
  split; [rewrite find_primes_threading_ok by lia; reflexivity|].
  split; [apply find_primes_sequential_ok|].
  split; [apply find_primes_threading_ok; lia|].
  split; [reflexivity|].
  apply find_primes_multiprocessing_raises; lia.
Qed.

(** C10. [is_prime] returns on every integer.  The loop is entered at
    [i = 5], goes on only while [i * i <= n] and then moves to [i + 6]; while
    it goes on the measure [n - i * i] is not negative, and the step makes it
    strictly smaller.  So [is_prime_budget n] iterations are enough: with that
    much fuel or more the body returns the value of [is_prime n]. *)
Theorem is_prime_terminates (n : Z) :
  exists b,
    (forall fuel, (is_prime_budget n <= fuel)%nat -> is_prime_fuel fuel n = Some b) /\
    is_prime n = b /\
    (forall fuel,
       3 < n -> n mod 2 <> 0 -> n mod 3 <> 0 ->
       is_prime_fuel fuel n = is_prime_loop fuel n 5) /\
    (forall fuel i,
       is_prime_loop (S fuel) n i
       = if i * i <=? n
         then if (n mod i =? 0) || (n mod (i + 2) =? 0) then Some false
              else is_prime_loop fuel n (i + 6)
         else Some true) /\
    (forall i, 0 < i -> i * i <= n ->
       0 <= n - i * i /\ n - (i + 6) * (i + 6) < n - i * i).
Proof.
  destruct (is_prime_fuel_budget n) as [b Hb]. exists b.
  split.
  { intros fuel Hfuel. unfold is_prime_fuel in *.
    destruct (n <=? 1); [exact Hb|]. destruct (n <=? 3); [exact Hb|].
    destruct ((n mod 2 =? 0) || (n mod 3 =? 0)); [exact Hb|].
    exact (is_prime_loop_more_fuel _ _ _ _ _ Hfuel Hb). }
  split; [exact (is_prime_fuel_spec _ _ _ Hb)|].
  split.
  { intros fuel Hn H2 H3. unfold is_prime_fuel.
    destruct (Z.leb_spec n 1); [lia|]. destruct (Z.leb_spec n 3); [lia|].
    destruct (Z.eqb_spec (n mod 2) 0); [contradiction|].
    destruct (Z.eqb_spec (n mod 3) 0); [contradiction|]. reflexivity. }
  split; [reflexivity|].
  intros i Hi Hle. split; [lia|apply loop_measure_decreases, Hi].
Qed.

(** * Part III: further properties of the program *)

(** ** The oracle's running time *)

(** The loop leaves as soon as [i] passes the integer square root of [n]. *)
Lemma is_prime_loop_sqrt_fuel (fuel : nat) :
  forall n i, 0 < i -> Z.sqrt n < i + 6 * Z.of_nat fuel ->
  exists b, is_prime_loop (S fuel) n i = Some b.
Proof.
  induction fuel as [|fuel IH]; intros n i Hi Hfuel; cbn [is_prime_loop].
  - destruct (Z.leb_spec (i * i) n) as [Hle|Hgt]; [|eauto]. exfalso.
    apply Z.sqrt_le_square in Hle; lia.
  - destruct (Z.leb_spec (i * i) n) as [Hle|Hgt]; [|eauto].
    destruct ((n mod i =? 0) || (n mod (i + 2) =? 0)); [eauto|].
    apply IH; lia.
Qed.

(** X1. [is_prime n] is decided within [(sqrt n + 1) / 6 + 1] tests of the
    loop condition, where [sqrt] is the integer square root: that much fuel,
    one unit per test, is enough for the body of [is_prime] to return. *)
Theorem is_prime_sqrt_budget (n : Z) :
  is_prime_fuel (S (Z.to_nat ((Z.sqrt n + 1) / 6))) n = Some (is_prime n).
Proof.
  assert (exists b, is_prime_fuel (S (Z.to_nat ((Z.sqrt n + 1) / 6))) n = Some b)
    as [b Hb].
  { unfold is_prime_fuel.
    destruct (n <=? 1); [eauto|]. destruct (n <=? 3); [eauto|].
    destruct ((n mod 2 =? 0) || (n mod 3 =? 0)); [eauto|].
    apply is_prime_loop_sqrt_fuel; [lia|].
    pose proof (Z.sqrt_nonneg n).
    pose proof (Z.div_pos (Z.sqrt n + 1) 6 ltac:(lia) ltac:(lia)).
    pose proof (Z.mul_succ_div_gt (Z.sqrt n + 1) 6 ltac:(lia)).
    rewrite Z2Nat.id by lia. lia. }
  rewrite Hb. f_equal. symmetry. exact (is_prime_fuel_spec _ _ _ Hb).
Qed.

(** ** More on the primes of a range *)

Lemma range2_length (start stop : Z) :
  Z.of_nat (length (range2 start stop)) = Z.max 0 (stop - start).
Proof. rewrite range2_seqZ, length_seqZ. lia. Qed.

Lemma range2_NoDup (start stop : Z) : List.NoDup (range2 start stop).
Proof. rewrite range2_seqZ. apply NoDup_ListNoDup, NoDup_seqZ. Qed.

(** X2. A range can be cut anywhere: the primes of [[a, c]] are the primes of
    [[a, b]] followed by the primes of [[b + 1, c]], and the counts add up. *)
Theorem find_primes_in_range_split (a b c : Z) :
  a <= b + 1 -> b <= c ->
  find_primes_in_range a c = find_primes_in_range a b ++ find_primes_in_range (b + 1) c /\
  len (find_primes_in_range a c)
  = len (find_primes_in_range a b) + len (find_primes_in_range (b + 1) c).
Proof.
  intros Hab Hbc. pose proof (find_primes_in_range_app a b c Hab Hbc) as Happ.
  split; [exact Happ|]. unfold len. rewrite Happ, length_app. lia.
Qed.

Lemma find_primes_in_range_split_1_10_30 :
  (1 <= 10 + 1 /\ 10 <= 30) /\
  find_primes_in_range 1 30 = find_primes_in_range 1 10 ++ find_primes_in_range (10 + 1) 30 /\
  len (find_primes_in_range 1 30)
  = len (find_primes_in_range 1 10) + len (find_primes_in_range (10 + 1) 30).
Proof. split; [lia|]. apply (find_primes_in_range_split 1 10 30); lia. Defined.

(** X3. [find_primes_in_range] never repeats a number and never returns more
    numbers than the range holds. *)
Theorem find_primes_in_range_bounded (start end_ : Z) :
  List.NoDup (find_primes_in_range start end_) /\
  len (find_primes_in_range start end_) <= Z.max 0 (end_ - start + 1).
Proof.
  unfold find_primes_in_range, len. split.
  - apply List.NoDup_filter, range2_NoDup.
  - pose proof (List.filter_length_le is_prime (range2 start (end_ + 1))) as Hle.
    pose proof (range2_length start (end_ + 1)). lia.
Qed.

(** On a range of one number, [find_primes_in_range n n] is [[n]] when
    [is_prime n] and empty otherwise. *)
Lemma find_primes_in_range_singleton (n : Z) :
  find_primes_in_range n n = if is_prime n then [n] else [].
Proof.
  unfold find_primes_in_range.
  rewrite range2_seqZ. replace (n + 1 - n) with 1 by lia.
  rewrite seqZ_cons, seqZ_nil by lia. reflexivity.
Qed.

(** ** The shape of the partition *)

Lemma range_from_length (start step : Z) (count : nat) :
  length (range_from start step count) = count.
Proof.
  revert start. induction count as [|count IH]; intros start; cbn [range_from length];
    [reflexivity|]. rewrite IH. reflexivity.
Qed.

Lemma ranges_length (start end_ cs : Z) (chunks : list (Z * Z)) :
  ranges start end_ cs = Ok chunks ->
  length chunks = Z.to_nat (range_len start (end_ + 1) cs).
Proof.
  unfold ranges, range3. destruct (cs =? 0); [discriminate|]. run.
  intros [= <-]. rewrite length_map. apply range_from_length.
Qed.

(** X4. Every chunk holds at most [chunk_size] integers, and every chunk that
    is not the last holds exactly [chunk_size]: only the last chunk can be
    short.  This holds for every worker count other than 0. *)
Theorem chunk_lengths (start end_ workers : Z) :
  workers <> 0 ->
  exists cs chunks,
    chunk_size start end_ workers = Ok cs /\
    ranges start end_ cs = Ok chunks /\
    forall (k : nat) a b, chunks !! k = Some (a, b) ->
      1 <= b - a + 1 <= cs /\
      (is_Some (chunks !! S k) -> b - a + 1 = cs).
Proof.
  intros Hw.
  destruct (ranges_tiles start end_ (Z.max 1 ((end_ - start + 1) / workers)) ltac:(lia))
    as (chunks & Hranges & Htiles).
  exists (Z.max 1 ((end_ - start + 1) / workers)), chunks.
  split; [apply chunk_size_ok, Hw|]. split; [exact Hranges|].
  intros k a b Hk.
  destruct (ranges_lookup _ _ _ _ _ _ _ Hranges Hk) as [Ha Hb].
  pose proof (tiles_bounds _ _ _ Htiles _ _ _ Hk) as Hbounds.
  split; [lia|]. intros [[a' b'] HSk].
  pose proof (tiles_contiguous _ _ _ Htiles _ _ _ _ _ Hk HSk) as Hnext.
  destruct (ranges_lookup _ _ _ _ _ _ _ Hranges HSk) as [Ha' _]. lia.
Qed.

Lemma chunk_lengths_1_10_4 :
  4 <> 0 /\
  exists cs chunks,
    chunk_size 1 10 4 = Ok cs /\
    ranges 1 10 cs = Ok chunks /\
    forall (k : nat) a b, chunks !! k = Some (a, b) ->
      1 <= b - a + 1 <= cs /\
      (is_Some (chunks !! S k) -> b - a + 1 = cs).
Proof. split; [lia|]. apply (chunk_lengths 1 10 4). lia. Defined.

(** X5. On a range of [n >= 1] integers with [workers >= 1], the number of
    chunks, which is the number of tasks submitted to the pool, is
    [(end - start) / chunk_size + 1].  It is [n] when there are at least as
    many workers as integers; otherwise it is at least [workers] and at most
    [2 * workers - 1], so there can be more tasks than workers. *)
Theorem chunk_count (start end_ workers : Z) :
  start <= end_ -> 1 <= workers ->
  exists cs chunks,
    chunk_size start end_ workers = Ok cs /\
    ranges start end_ cs = Ok chunks /\
    len_chunks chunks = (end_ - start) / cs + 1 /\
    (end_ - start + 1 <= workers -> cs = 1 /\ len_chunks chunks = end_ - start + 1) /\
    (workers <= end_ - start + 1 -> workers <= len_chunks chunks <= 2 * workers - 1).
Proof.
  intros Hrange Hw.
  set (n := end_ - start + 1). set (cs := Z.max 1 (n / workers)).
  destruct (ranges_tiles start end_ cs ltac:(lia)) as (chunks & Hranges & Htiles).
  exists cs, chunks.
  split; [apply chunk_size_ok; lia|]. split; [exact Hranges|].
  assert (len_chunks chunks = (end_ - start) / cs + 1) as Hlen.
  { unfold len_chunks. rewrite (ranges_length _ _ _ _ Hranges). unfold range_len.
    destruct (Z.ltb_spec 0 cs); [|lia].
    destruct (Z.leb_spec (end_ + 1) start); [lia|].
    pose proof (Z.div_pos (end_ + 1 - start - 1) cs ltac:(lia) ltac:(lia)).
    rewrite Z2Nat.id by lia. do 2 f_equal. lia. }
  split; [exact Hlen|].
  pose proof (Z.mul_div_le n workers ltac:(lia)) as Hlo.
  pose proof (Z.mul_succ_div_gt n workers ltac:(lia)) as Hhi.
  pose proof (Z.div_pos n workers ltac:(lia) ltac:(lia)) as Hq.
  split.
  - intros Hfew.
    assert (cs = 1) as Hcs.
    { assert (n / workers <= 1); [|lia].
      destruct (Z_lt_le_dec 1 (n / workers)); [nia|assumption]. }
    split; [exact Hcs|]. rewrite Hlen, Hcs, Z.div_1_r. lia.
  - intros Hmany.
    assert (1 <= n / workers) as Hq1.
    { apply Z.div_le_lower_bound; lia. }
    assert (cs = n / workers) as Hcs by lia.
    rewrite Hlen. split.
    + assert (workers - 1 <= (end_ - start) / cs); [|lia].
      apply Z.div_le_lower_bound; [lia|]. nia.
    + assert ((end_ - start) / cs < 2 * workers - 1); [|lia].
      apply Z.div_lt_upper_bound; [lia|]. nia.
Qed.

Lemma chunk_count_1_10_4 :
  (1 <= 10 /\ 1 <= 4) /\
  exists cs chunks,
    chunk_size 1 10 4 = Ok cs /\
    ranges 1 10 cs = Ok chunks /\
    len_chunks chunks = (10 - 1) / cs + 1 /\
    (10 - 1 + 1 <= 4 -> cs = 1 /\ len_chunks chunks = 10 - 1 + 1) /\
    (4 <= 10 - 1 + 1 -> 4 <= len_chunks chunks <= 2 * 4 - 1).
Proof. split; [lia|]. apply (chunk_count 1 10 4); lia. Defined.

(** ** The strategies on every worker count *)

Section StrategyCases.
Context `{Runtime}.

(** What a returning fan-out strategy tells about its arguments. *)
Lemma find_primes_threading_returned (start end_ num_threads : Z) (s s' : nat)
    (primes : list Z) (duration : time) :
  find_primes_threading start end_ num_threads s = Ok (primes, duration, s') ->
  1 <= num_threads /\ primes = find_primes_in_range start end_ /\
  duration = time_sub (clock (S s)) (clock s) /\ s' = S (S s).
Proof.
  destruct (Z.lt_trichotomy num_threads 0) as [Hneg|[->|Hpos]].
  - rewrite find_primes_threading_negative by exact Hneg. discriminate.
  - discriminate.
  - rewrite find_primes_threading_ok by lia. intros [= <- <- <-].
    repeat split; reflexivity || lia.
Qed.

Lemma find_primes_multiprocessing_returned (start end_ num_processes : Z) (s s' : nat)
    (primes : list Z) (duration : time) :
  find_primes_multiprocessing start end_ num_processes s = Ok (primes, duration, s') ->
  1 <= num_processes <= pool_max_workers /\ end_ < start /\ primes = [] /\
  duration = time_sub (clock (S s)) (clock s) /\ s' = S (S s).
Proof.
  destruct (Z.lt_trichotomy num_processes 0) as [Hneg|[->|Hpos]].
  - rewrite find_primes_multiprocessing_negative by exact Hneg. discriminate.
  - discriminate.
  - destruct (Z_lt_le_dec pool_max_workers num_processes) as [Hbig|Hfits].
    { rewrite find_primes_multiprocessing_refused by exact Hbig. discriminate. }
    destruct (Z_le_gt_dec start end_) as [Hrange|Hempty].
    + rewrite find_primes_multiprocessing_raises by lia. discriminate.
    + rewrite find_primes_multiprocessing_empty by lia. intros [= <- <- <-].
      repeat split; reflexivity || lia.
Qed.

End StrategyCases.

(** X6. The thread strategy raises [ZeroDivisionError] with no worker,
    [ValueError] with a negative worker count (the chunk size is clamped, the
    pool refuses), and with at least one worker it is the sequential
    strategy: the same list, the same two clock readings, whatever the order
    in which the threads finish. *)
Theorem find_primes_threading_behaviour `{Runtime} (start end_ num_threads : Z) (s : nat) :
  find_primes_threading start end_ num_threads s
  = if num_threads =? 0 then Raise ZeroDivisionError
    else if num_threads <? 0 then Raise ValueError
    else find_primes_sequential start end_ s.
Proof.
  destruct (Z.eqb_spec num_threads 0) as [->|Hnz]; [reflexivity|].
  destruct (Z.ltb_spec num_threads 0) as [Hneg|Hpos].
  - apply find_primes_threading_negative, Hneg.
  - rewrite find_primes_threading_ok by lia. symmetry. apply find_primes_sequential_ok.
Qed.


(** ** The harness on every input *)

(** All the strategy records of a dict built by insertions satisfy [P]. *)
Ltac strategy_entries :=
  let k := fresh "k" in let r := fresh "r" in let Hk := fresh "Hk" in
  intros k r Hk;
  repeat (apply lookup_insert_Some in Hk as [[_ Hk]|[_ Hk]];
          [try discriminate; injection Hk as <-; reflexivity|]);
  rewrite lookup_empty in Hk; discriminate.

(** The ['primes'] entry of such a dict. *)
Ltac primes_entry :=
  repeat (rewrite lookup_insert_ne by discriminate);
  rewrite ?lookup_insert_eq, ?lookup_empty; reflexivity.

Section HarnessCases.
Context `{Runtime}.


End HarnessCases.





(** X10. Whenever [main] returns, every strategy record of the dict counts
    exactly the primes of the range, [len (find_primes_in_range start end)],
    and the dict has a ['primes'] entry exactly when [--save-primes] was
    given, holding that ascending list. *)
Theorem main_reports_the_primes `{Runtime} (args : Args) (s s' : nat)
    (results : gmap string entry) :
  main args s = Ok (results, s') ->
  (forall k r, results !! k = Some (Strategy r) ->
     primes_found r = len (find_primes_in_range (args_start args) (args_end args))) /\
  results !! "primes"
  = if args_save_primes args
    then Some (PrimeList (find_primes_in_range (args_start args) (args_end args)))
    else None.
Proof.
  unfold main. destruct (args_method args) eqn:Hmethod; run.
  - rewrite find_primes_sequential_ok.
    destruct (args_save_primes args); intros Heq; injection Heq as Hres _; subst results;
      (split; [strategy_entries|primes_entry]).
  - destruct (find_primes_threading _ _ _ s) as [[[primes duration] s1]|e] eqn:Hrun;
      [|discriminate].
    apply find_primes_threading_returned in Hrun as (_ & -> & _ & _).
    destruct (args_save_primes args); intros Heq; injection Heq as Hres _; subst results;
      (split; [strategy_entries|primes_entry]).
  - destruct (find_primes_multiprocessing _ _ _ s) as [[[primes duration] s1]|e] eqn:Hrun;
      [|discriminate].
    apply find_primes_multiprocessing_returned in Hrun as (_ & Hempty & -> & _ & _).
    rewrite find_primes_in_range_empty by exact Hempty.
    destruct (args_save_primes args); intros Heq; injection Heq as Hres _; subst results;
      (split; [strategy_entries|primes_entry]).
  - destruct (benchmark_all_methods _ _ _ s) as [[[results0 primes] s1]|e] eqn:Hrun;
      [|discriminate].
    apply benchmark_all_methods_returns in Hrun
      as (p_thread & d_thread & s2 & p_multi & d_multi
          & -> & Hthread & _ & Hmulti & _ & ->).
    apply find_primes_threading_returned in Hthread as (_ & -> & _ & _).
    apply find_primes_multiprocessing_returned in Hmulti as (_ & Hempty & -> & _ & _).
    rewrite !(find_primes_in_range_empty _ _ Hempty).
    destruct (args_save_primes args); intros Heq; injection Heq as Hres _; subst results;
      (split; [strategy_entries|primes_entry]).
Qed.

Lemma main_reports_the_primes_sample :
  @main sample_runtime sample_args 0%nat = Ok (sample_results, 2%nat) /\
  (forall k r, sample_results !! k = Some (Strategy r) ->
     primes_found r = len (find_primes_in_range 1 20)) /\
  sample_results !! "primes" = None.
Proof.
  split; [reflexivity|].
  apply (@main_reports_the_primes sample_runtime sample_args 0%nat 2%nat). reflexivity.
Defined.

(** ** Reading the result files *)

(** One step of a computation in [outcome]. *)
Ltac run_outcome := cbv beta iota zeta delta [mbind outcome_bind mret outcome_ret].

(** Look a literal label up in a dict built by insertions of literal labels. *)
Ltac lookup_label :=
  repeat (rewrite lookup_insert_ne by discriminate);
  first [rewrite lookup_insert_eq; reflexivity | apply lookup_empty].

Section Files.
Context {F : Type}.
Implicit Types (data d : json F) (r : row F) (results rows : gmap string (row F)).

Lemma read_row_returned (x : outcome (json F)) r :
  read_row x = Returned r -> exists d, x = Returned d /\ holds_row d r.
Proof.
  unfold read_row. run_outcome. destruct x as [d|e]; [|discriminate].
  destruct d as [| | | | | |fields]; try discriminate. cbn [getitem].
  destruct (fields !! "execution_time") as [t|] eqn:Ht; [|discriminate].
  destruct (fields !! "workers") as [w|] eqn:Hw; [|discriminate].
  destruct (fields !! "primes_found") as [p|] eqn:Hp; [|discriminate].
  intros [= <-]. exists (JObject fields). split; [reflexivity|].
  exists fields. cbn. auto.
Qed.

Lemma load_go_returned (file : file_state (json F)) results rows :
  load_go file results = Returned rows ->
  exists o, go_row file o /\
            rows = match o with Some r => <["Go" := r]> results | None => results end.
Proof.
  unfold load_go. destruct file as [| |data]; run_outcome; [|discriminate|].
  - intros [= <-]. exists None. split; reflexivity.
  - destruct (read_row (Returned data)) as [r|e] eqn:Hrow; [|discriminate].
    intros [= <-]. apply read_row_returned in Hrow as (d & [= <-] & Hd).
    exists (Some r). split; [exists data; auto|reflexivity].
Qed.

Lemma load_section_returned data (key label : string) results rows :
  load_section data key label results = Returned rows ->
  exists o, section_row (Holds data) key o /\
            rows = match o with Some r => <[label := r]> results | None => results end.
Proof.
  unfold load_section. run_outcome.
  destruct (contains key data) as [[|]|e] eqn:Hin; [| |discriminate].
  - destruct (read_row (getitem data key)) as [r|e] eqn:Hrow; [|discriminate].
    intros [= <-]. apply read_row_returned in Hrow as (d & Hget & Hd).
    exists (Some r). split; [|reflexivity]. exists data, d. auto.
  - intros [= <-]. exists None. split; [|reflexivity]. right. exists data. auto.
Qed.

Lemma load_sections_returned (file : file_state (json F))
    (key1 label1 key2 label2 : string) results rows :
  load_sections file key1 label1 key2 label2 results = Returned rows ->
  exists o1 o2, section_row file key1 o1 /\ section_row file key2 o2 /\
    rows = match o2 with Some r => <[label2 := r]> | None => id end
             (match o1 with Some r => <[label1 := r]> results | None => results end).
Proof.
  unfold load_sections. destruct file as [| |data]; run_outcome; [|discriminate|].
  - intros [= <-]. exists None, None. repeat split; left; reflexivity.
  - destruct (load_section data key1 label1 results) as [rows1|e] eqn:H1; [|discriminate].
    intros H2.
    apply load_section_returned in H1 as (o1 & Ho1 & ->).
    apply load_section_returned in H2 as (o2 & Ho2 & ->).
    exists o1, o2. destruct o2; auto.
Qed.

(** Every label of a returned dict, with the file state it stands for. *)
Lemma load_results_returned (files : Files F) rows :
  load_results files = Returned rows ->
  exists o_go o_mp o_thread o_pool o_par,
    go_row (go_file files) o_go /\
    section_row (python_file files) "multiprocessing" o_mp /\
    section_row (python_file files) "threading" o_thread /\
    section_row (java_file files) "threadpool" o_pool /\
    section_row (java_file files) "parallelstream" o_par /\
    forall label,
      rows !! label
      = if String.eqb label "Go" then o_go
        else if String.eqb label "Python (MP)" then o_mp
        else if String.eqb label "Python (Thread)" then o_thread
        else if String.eqb label "Java (ThreadPool)" then o_pool
        else if String.eqb label "Java (Parallel)" then o_par
        else None.
Proof.
  unfold load_results. run_outcome.
  destruct (load_go (go_file files) ∅) as [rows1|e] eqn:Hgo; [|discriminate].
  destruct (load_sections (python_file files) _ _ _ _ rows1) as [rows2|e] eqn:Hpy;
    [|discriminate].
  destruct (load_sections (java_file files) _ _ _ _ rows2) as [rows3|e] eqn:Hjava;
    [|discriminate].
  intros [= <-].
  apply load_go_returned in Hgo as (o_go & Hgo & ->).
  apply load_sections_returned in Hpy as (o_mp & o_thread & Hmp & Hthread & ->).
  apply load_sections_returned in Hjava as (o_pool & o_par & Hpool & Hpar & ->).
  exists o_go, o_mp, o_thread, o_pool, o_par. repeat (split; [assumption|]).
  intros label.
  destruct o_go, o_mp, o_thread, o_pool, o_par; unfold id;
    (destruct (String.eqb_spec label "Go") as [->|?]; [lookup_label|]);
    (destruct (String.eqb_spec label "Python (MP)") as [->|?]; [lookup_label|]);
    (destruct (String.eqb_spec label "Python (Thread)") as [->|?]; [lookup_label|]);
    (destruct (String.eqb_spec label "Java (ThreadPool)") as [->|?]; [lookup_label|]);
    (destruct (String.eqb_spec label "Java (Parallel)") as [->|?]; [lookup_label|]);
    repeat (rewrite lookup_insert_ne by congruence); apply lookup_empty.
Qed.

End Files.

Section FilesTheorems.
Context {F : Type}.
Implicit Types (data d : json F) (r : row F) (rows : gmap string (row F)).

Lemma section_row_has_section (file : file_state (json F)) (key : string)
    (o : option (row F)) :
  section_row file key o -> (is_Some o <-> has_section file key).
Proof.
  destruct o as [r|]; cbn.
  - intros (data & d & -> & Hin & _). split; [|eauto]. intros _. exists data. auto.
  - intros Hnone. split; [intros [r Hr]; discriminate|].
    intros (data & -> & Hin). destruct Hnone as [Hm|(data' & [= <-] & Hin')];
      [discriminate|congruence].
Qed.

(** X11. Whenever [load_results] returns, its dict has no other key than the
    five labels; ['Go'] is there exactly when the Go file exists, and each
    Python or Java label exactly when its file exists and has the section's
    key. *)
Theorem load_results_labels (files : Files F) rows :
  load_results files = Returned rows ->
  dom rows ⊆ {[ "Go"; "Python (MP)"; "Python (Thread)";
                "Java (ThreadPool)"; "Java (Parallel)" ]} /\
  ("Go" ∈ dom rows <-> exists data, go_file files = Holds data) /\
  ("Python (MP)" ∈ dom rows <-> has_section (python_file files) "multiprocessing") /\
  ("Python (Thread)" ∈ dom rows <-> has_section (python_file files) "threading") /\
  ("Java (ThreadPool)" ∈ dom rows <-> has_section (java_file files) "threadpool") /\
  ("Java (Parallel)" ∈ dom rows <-> has_section (java_file files) "parallelstream").
Proof.
  intros Hret.
  apply load_results_returned in Hret
    as (o_go & o_mp & o_thread & o_pool & o_par
        & Hgo & Hmp & Hthread & Hpool & Hpar & Hlookup).
  split.
  { intros label Hin. apply elem_of_dom in Hin. rewrite Hlookup in Hin.
    rewrite !elem_of_union, !elem_of_singleton.
    destruct (String.eqb_spec label "Go"); [tauto|].
    destruct (String.eqb_spec label "Python (MP)"); [tauto|].
    destruct (String.eqb_spec label "Python (Thread)"); [tauto|].
    destruct (String.eqb_spec label "Java (ThreadPool)"); [tauto|].
    destruct (String.eqb_spec label "Java (Parallel)"); [tauto|].
    destruct Hin as [r Hr]. discriminate. }
  rewrite !elem_of_dom, !Hlookup. cbn.
  split.
  { destruct o_go as [r|]; cbn in Hgo.
    - destruct Hgo as (data & -> & _). split; eauto.
    - rewrite Hgo. split; [intros [r Hr]; discriminate|intros [data Hd]; discriminate]. }
  repeat split; apply section_row_has_section; assumption.
Qed.

Lemma section_row_source (file : file_state (json F)) (key : string) r :
  section_row file key (Some r) ->
  exists d, section_of file key = Some d /\ holds_row d r.
Proof.
  intros (data & d & -> & _ & Hget & Hd). exists d. cbn. rewrite Hget. auto.
Qed.

(** X12. Every row [load_results] returns is a copy of three fields of its
    file: the row of a label holds the values found under [execution_time],
    [workers] and [primes_found] in the dict the label is read from, the top
    of the Go file or the section of the Python or the Java file. *)
Theorem load_results_rows_are_copies (files : Files F) rows (label : string) r :
  load_results files = Returned rows ->
  rows !! label = Some r ->
  exists d, row_source files label = Some d /\ holds_row d r.
Proof.
  intros Hret Hrow.
  apply load_results_returned in Hret
    as (o_go & o_mp & o_thread & o_pool & o_par
        & Hgo & Hmp & Hthread & Hpool & Hpar & Hlookup).
  rewrite Hlookup in Hrow. unfold row_source.
  destruct (String.eqb label "Go").
  { subst o_go. destruct Hgo as (data & -> & Hd). eauto. }
  destruct (String.eqb label "Python (MP)"); [subst; eauto using section_row_source|].
  destruct (String.eqb label "Python (Thread)"); [subst; eauto using section_row_source|].
  destruct (String.eqb label "Java (ThreadPool)"); [subst; eauto using section_row_source|].
  destruct (String.eqb label "Java (Parallel)"); [subst; eauto using section_row_source|].
  discriminate.
Qed.

Lemma section_row_none_both (file : file_state (json F)) (key1 key2 : string) :
  section_row file key1 None -> section_row file key2 None ->
  file = Missing \/
  exists data, file = Holds data /\
               contains key1 data = Returned false /\
               contains key2 data = Returned false.
Proof.
  intros [H1|(data & -> & H1)] [H2|(data' & Heq & H2)]; auto; try discriminate.
  injection Heq as <-. right. eauto.
Qed.

(** X13. The script reports that there are no results exactly when there is
    no Go file and each of the Python and the Java file is absent or has
    neither of its two sections; a Python file with only a ['sequential']
    section counts for nothing. *)
Theorem visualize_no_results_iff (files : Files F) :
  visualize files = Returned NoResultsFound <->
  go_file files = Missing /\
  (python_file files = Missing \/
   exists data, python_file files = Holds data /\
                contains "multiprocessing" data = Returned false /\
                contains "threading" data = Returned false) /\
  (java_file files = Missing \/
   exists data, java_file files = Holds data /\
                contains "threadpool" data = Returned false /\
                contains "parallelstream" data = Returned false).
Proof.
  unfold visualize. run_outcome. split.
  - destruct (load_results files) as [rows|e] eqn:Hret; [|discriminate].
    destruct (Nat.eqb_spec (size rows) 0) as [Hsize|_]; [|discriminate]. intros _.
    apply map_size_empty_iff in Hsize. subst rows.
    apply load_results_returned in Hret
      as (o_go & o_mp & o_thread & o_pool & o_par
          & Hgo & Hmp & Hthread & Hpool & Hpar & Hlookup).
    pose proof (Hlookup "Go") as Hl1. pose proof (Hlookup "Python (MP)") as Hl2.
    pose proof (Hlookup "Python (Thread)") as Hl3.
    pose proof (Hlookup "Java (ThreadPool)") as Hl4.
    pose proof (Hlookup "Java (Parallel)") as Hl5.
    rewrite lookup_empty in Hl1, Hl2, Hl3, Hl4, Hl5. cbn in Hl1, Hl2, Hl3, Hl4, Hl5.
    subst. auto using section_row_none_both.
  - intros (Hgo & Hpy & Hjava). unfold load_results, load_go, load_sections, load_section.
    rewrite Hgo. run_outcome.
    destruct Hpy as [->|(data & -> & -> & ->)];
      destruct Hjava as [->|(data' & -> & -> & ->)]; reflexivity.
Qed.

End FilesTheorems.

Lemma load_results_labels_sample :
  exists found,
    load_results sample_files = Returned found /\
    dom found ⊆ {[ "Go"; "Python (MP)"; "Python (Thread)";
                  "Java (ThreadPool)"; "Java (Parallel)" ]} /\
    ("Go" ∈ dom found <-> exists content, go_file sample_files = Holds content) /\
    ("Python (MP)" ∈ dom found
     <-> has_section (python_file sample_files) "multiprocessing") /\
    ("Python (Thread)" ∈ dom found
     <-> has_section (python_file sample_files) "threading") /\
    ("Java (ThreadPool)" ∈ dom found
     <-> has_section (java_file sample_files) "threadpool") /\
    ("Java (Parallel)" ∈ dom found
     <-> has_section (java_file sample_files) "parallelstream").
Proof.
  eexists. split; [reflexivity|].
  apply (load_results_labels sample_files). reflexivity.
Defined.

Lemma load_results_rows_are_copies_sample :
  exists found entry_row,
    load_results sample_files = Returned found /\
    found !! "Go" = Some entry_row /\
    exists source, row_source sample_files "Go" = Some source /\ holds_row source entry_row.
Proof.
  eexists. eexists. split; [reflexivity|]. split; [reflexivity|].
  eapply (load_results_rows_are_copies sample_files); reflexivity.
Defined.

(** ** From [main] to the charts *)

Section AfterMain.
Context `{Runtime}.

Lemma contains_json_of_results (key : string) (results : gmap string entry) :
  contains key (json_of_results results)
  = Returned (bool_decide (is_Some (results !! key))).
Proof.
  unfold json_of_results. cbn [contains]. f_equal. apply bool_decide_ext.
  rewrite lookup_fmap. apply fmap_is_Some.
Qed.

Lemma read_row_json_of_record (r : BenchmarkRecord) :
  read_row (Returned (json_of_record r)) = Returned (row_of_record r).
Proof. unfold json_of_record. destruct (speedup r); reflexivity. Qed.

Lemma load_section_absent (key label : string) (results : gmap string entry)
    (rows : gmap string (row time)) :
  results !! key = None ->
  load_section (json_of_results results) key label rows = Returned rows.
Proof.
  intros Hnone. unfold load_section. rewrite contains_json_of_results, Hnone.
  reflexivity.
Qed.

Lemma load_section_strategy (key label : string) (results : gmap string entry)
    (rows : gmap string (row time)) (r : BenchmarkRecord) :
  results !! key = Some (Strategy r) ->
  load_section (json_of_results results) key label rows
  = Returned (<[label := row_of_record r]> rows).
Proof.
  intros Hsome. unfold load_section. rewrite contains_json_of_results, Hsome.
  run_outcome. rewrite bool_decide_true by eauto.
  unfold json_of_results. cbn [getitem]. rewrite lookup_fmap, Hsome.
  cbn [fmap option_fmap option_map json_of_entry].
  rewrite read_row_json_of_record. reflexivity.
Qed.

(** Which fan-out records [main] leaves in its dict. *)
Lemma main_fanout_entries (args : Args) (s s' : nat) (results : gmap string entry) :
  main args s = Ok (results, s') ->
  match args_method args with
  | Threading | All => exists r, results !! "threading" = Some (Strategy r)
  | _ => results !! "threading" = None
  end /\
  match args_method args with
  | Multiprocessing | All => exists r, results !! "multiprocessing" = Some (Strategy r)
  | _ => results !! "multiprocessing" = None
  end.
Proof.
  unfold main. destruct (args_method args) eqn:Hmethod; run.
  - rewrite find_primes_sequential_ok.
    destruct (args_save_primes args); intros Heq; injection Heq as Hres _; subst results;
      split; lookup_label.
  - destruct (find_primes_threading _ _ _ s) as [[[primes duration] s1]|e]; [|discriminate].
    destruct (args_save_primes args); intros Heq; injection Heq as Hres _; subst results;
      (split; [eexists; lookup_key|lookup_label]).
  - destruct (find_primes_multiprocessing _ _ _ s) as [[[primes duration] s1]|e];
      [|discriminate].
    destruct (args_save_primes args); intros Heq; injection Heq as Hres _; subst results;
      (split; [lookup_label|eexists; lookup_key]).
  - destruct (benchmark_all_methods _ _ _ s) as [[[results0 primes] s1]|e] eqn:Hbench;
      [|discriminate].
    apply benchmark_all_methods_returns in Hbench
      as (p_thread & d_thread & s2 & p_multi & d_multi & _ & _ & _ & _ & _ & ->).
    destruct (args_save_primes args); intros Heq; injection Heq as Hres _; subst results;
      (split; eexists; lookup_key).
Qed.

End AfterMain.

(** X14. What the visualizer makes of a file that [main] wrote.  If the
    Python result file holds the dict of a returning run of [main] and there
    is no other file, [load_results] does not raise; it has the row
    ['Python (Thread)'] exactly after [--method threading] or [all] and the
    row ['Python (MP)'] exactly after [--method multiprocessing] or [all],
    each with the record's elapsed time, worker count and prime count, and no
    other row.  After [--method sequential] there is no row and the script
    reports that there are no results. *)
Theorem load_results_after_main `{Runtime} (args : Args) (s s' : nat)
    (results : gmap string entry) :
  main args s = Ok (results, s') ->
  let files := {| go_file := Missing;
                  python_file := Holds (json_of_results results);
                  java_file := Missing |} in
  exists rows,
    load_results files = Returned rows /\
    rows !! "Python (MP)" = row_of_record <$> strategy_at "multiprocessing" results /\
    rows !! "Python (Thread)" = row_of_record <$> strategy_at "threading" results /\
    dom rows ⊆ {[ "Python (MP)"; "Python (Thread)" ]} /\
    (is_Some (rows !! "Python (MP)")
     <-> args_method args = Multiprocessing \/ args_method args = All) /\
    (is_Some (rows !! "Python (Thread)")
     <-> args_method args = Threading \/ args_method args = All) /\
    (args_method args = Sequential -> visualize files = Returned NoResultsFound).
Proof.
  intros Hret. cbv zeta.
  apply main_fanout_entries in Hret as [Hthread Hmulti].
  unfold visualize, load_results, load_go, load_sections, strategy_at.
  cbn [go_file python_file java_file]. run_outcome.
  destruct (args_method args) eqn:Hmethod.
  - rewrite !load_section_absent by assumption. rewrite Hthread, Hmulti.
    exists ∅. split; [reflexivity|]. repeat split; try reflexivity;
      try (intros [r Hr]; discriminate); try (intros [?|?]; discriminate).
    intros k Hk. apply elem_of_dom in Hk as [r Hr]. discriminate.
  - destruct Hthread as [r Hr].
    rewrite (load_section_absent "multiprocessing") by assumption.
    rewrite (load_section_strategy "threading" _ _ _ r) by assumption.
    rewrite Hr, Hmulti. eexists. split; [reflexivity|].
    repeat split; try lookup_label; try (intros [? ?]; discriminate);
      try (intros [?|?]; discriminate); try discriminate; eauto.
    all: keys_within.
  - destruct Hmulti as [r Hr].
    rewrite (load_section_strategy "multiprocessing" _ _ _ r) by assumption.
    rewrite (load_section_absent "threading") by assumption.
    rewrite Hr, Hthread. eexists. split; [reflexivity|].
    repeat split; try lookup_label; try (intros [? ?]; discriminate);
      try (intros [?|?]; discriminate); try discriminate; eauto.
    all: keys_within.
  - destruct Hthread as [r1 Hr1]. destruct Hmulti as [r2 Hr2].
    rewrite (load_section_strategy "multiprocessing" _ _ _ r2) by assumption.
    rewrite (load_section_strategy "threading" _ _ _ r1) by assumption.
    rewrite Hr1, Hr2. eexists. split; [reflexivity|].
    repeat split; try lookup_label; try (intros [? ?]; discriminate);
      try (intros [?|?]; discriminate); try discriminate; eauto.
    all: keys_within.
Qed.

Lemma load_results_after_main_sample :
  @main sample_runtime sample_args 0%nat = Ok (sample_results, 2%nat) /\
  exists found,
    load_results {| go_file := Missing;
                    python_file := Holds (@json_of_results sample_runtime sample_results);
                    java_file := Missing |} = Returned found /\
    found !! "Python (MP)"
    = @row_of_record sample_runtime <$> strategy_at "multiprocessing" sample_results /\
    found !! "Python (Thread)"
    = @row_of_record sample_runtime <$> strategy_at "threading" sample_results /\
    dom found ⊆ {[ "Python (MP)"; "Python (Thread)" ]} /\
    (is_Some (found !! "Python (MP)")
     <-> args_method sample_args = Multiprocessing \/ args_method sample_args = All) /\
    (is_Some (found !! "Python (Thread)")
     <-> args_method sample_args = Threading \/ args_method sample_args = All) /\
    (args_method sample_args = Sequential ->
     visualize {| go_file := Missing;
                  python_file := Holds (@json_of_results sample_runtime sample_results);
                  java_file := Missing |} = Returned NoResultsFound).
Proof.
  split; [reflexivity|].
  apply (@load_results_after_main sample_runtime sample_args 0%nat 2%nat). reflexivity.
Defined.
